(** * ATIS decoder: a shallow embedding of [atis_decoder.c]

    The development follows the source file top to bottom: the symbol codec
    ([sym_decode]), the bit ring ([rpush], [rpop], [rpeek]), and the body of
    the sample loop of [main] (the HUNT search, the LOCKED symbol grouping,
    the read/skip collector and the emission of the digit string).

    C [int] variables are modelled by [Z].  The cursors [rwr], [rrd] and the
    counter [parity] only ever grow, by at most one per classified bit, so on
    any stream of fewer than 2^31 bits they stay inside the range of [int];
    signed overflow beyond that is undefined in C and is outside the model. *)

From Stdlib Require Import ZArith Zquot String Ascii DecimalString.
From stdpp Require Import base numbers list.
Local Open Scope Z_scope.

(** ** Constants of the source *)

Definition SAMPLE_RATE : Z := 24000.
Definition BAUD_RATE : Z := 1200.
Definition SPB : Z := Z.quot SAMPLE_RATE BAUD_RATE.
Definition MARK_HZ : Z := 1300.
Definition SPACE_HZ : Z := 2100.
Definition SYM_DX : Z := 125.
Definition RING : Z := 256.

(** ** Symbol codec *)

(** [__builtin_popcount] on a 32-bit unsigned value. *)
Definition popcount (n : Z) : Z :=
  foldr (fun i acc => Z.b2z (Z.testbit n (Z.of_nat i)) + acc) 0 (seq 0 32).

(** [sym_decode]: [b] is the array of ten [uint8_t] cells; [-1] signals a
    check-field mismatch. *)
Definition sym_decode (b : list Z) : Z :=
  let v := fold_left (fun v i => Z.lor v (Z.shiftl (nth i b 0) (Z.of_nat i)))
                     (seq 0 7) 0 in
  let zeros := 7 - popcount (Z.land v 127) in
  let chk := Z.lor (Z.lor (Z.shiftl (nth 7 b 0) 2) (Z.shiftl (nth 8 b 0) 1))
                   (nth 9 b 0) in
  if chk =? zeros then v else -1.

(** The symbol format in the words of the specification: seven data bits,
    bit [i] of weight [2^i], then a three-bit check field, most significant
    bit first, holding the number of zero data bits. *)
Definition is_bit (x : Z) : Prop := x = 0 \/ x = 1.

Definition weighted_sum (b : list Z) : Z :=
  nth 0 b 0 + 2 * nth 1 b 0 + 4 * nth 2 b 0 + 8 * nth 3 b 0
  + 16 * nth 4 b 0 + 32 * nth 5 b 0 + 64 * nth 6 b 0.

Definition check_field (b : list Z) : Z :=
  4 * nth 7 b 0 + 2 * nth 8 b 0 + nth 9 b 0.

Definition zero_count (b : list Z) : Z :=
  Z.of_nat (length (filter (fun x => x = 0) (take 7 b))).

(** Modelled from the spec: [encode] is not part of the source (the
    specification asks for it in test fixtures only); it builds the seven
    data bits of [v], least significant first, and appends the check field,
    the count of zero data bits, most significant bit first. *)
Definition encode (v : Z) : list Z :=
  let d := map (fun i => Z.b2z (Z.testbit v (Z.of_nat i))) (seq 0 7) in
  let zeros := Z.of_nat (length (filter (fun x => x = 0) d)) in
  d ++ [Z.b2z (Z.testbit zeros 2); Z.b2z (Z.testbit zeros 1);
        Z.b2z (Z.testbit zeros 0)].

(** ** Bit ring buffer *)

(** The static array [ring] with its cursors [rwr], [rrd] and the occupancy
    count [rcnt]. *)
Record ring_t := Ring { ring : list Z; rwr : Z; rrd : Z; rcnt : Z }.

(** The array cell addressed by [k % RING] (C remainder). *)
Definition slot (k : Z) : nat := Z.to_nat (Z.rem k RING).

(** [ring[rwr++ % RING] = b; rcnt++]; the store converts to [uint8_t]. *)
Definition rpush (b : Z) (r : ring_t) : ring_t :=
  {| ring := <[slot (rwr r) := b mod 256]> (ring r);
     rwr := rwr r + 1; rrd := rrd r; rcnt := rcnt r + 1 |}.

(** [rcnt--; return ring[rrd++ % RING]] *)
Definition rpop (r : ring_t) : Z * ring_t :=
  (nth (slot (rrd r)) (ring r) 0,
   {| ring := ring r; rwr := rwr r; rrd := rrd r + 1; rcnt := rcnt r - 1 |}).

(** [ring[(rrd + i) % RING]] *)
Definition rpeek (i : Z) (r : ring_t) : Z := nth (slot (rrd r + i)) (ring r) 0.

(** [for (i = 0; i < 10; i++) raw[i] = rpeek(i)] *)
Definition rpeekn (n : nat) (r : ring_t) : list Z :=
  map (fun i => rpeek (Z.of_nat i) r) (seq 0 n).

(** [for (i = 0; i < n; i++) raw[i] = rpop()] *)
Fixpoint rpopn (n : nat) (r : ring_t) : list Z * ring_t :=
  match n with
  | O => ([], r)
  | S k => let (x, r1) := rpop r in
           let (xs, r2) := rpopn k r1 in (x :: xs, r2)
  end.

(** A run of [rpush] calls. *)
Definition pushes (bits : list bool) (r : ring_t) : ring_t :=
  foldl (fun r b => rpush (Z.b2z b) r) r bits.

Definition ring0 : ring_t :=
  {| ring := replicate 256 0; rwr := 0; rrd := 0; rcnt := 0 |}.

(** ** Decoder state: the ring and the locals of [main] *)

Inductive mode := HUNT | LOCKED.

Record decoder := Decoder {
  rg : ring_t;
  state : mode;
  sym_bit : Z;
  data : list Z;
  dcnt : Z;
  started : bool;
  parity : Z }.

Definition set_rg (r : ring_t) (d : decoder) : decoder :=
  Decoder r (state d) (sym_bit d) (data d) (dcnt d) (started d) (parity d).
Definition set_state (m : mode) (d : decoder) : decoder :=
  Decoder (rg d) m (sym_bit d) (data d) (dcnt d) (started d) (parity d).
Definition set_sym_bit (k : Z) (d : decoder) : decoder :=
  Decoder (rg d) (state d) k (data d) (dcnt d) (started d) (parity d).
Definition set_data (l : list Z) (d : decoder) : decoder :=
  Decoder (rg d) (state d) (sym_bit d) l (dcnt d) (started d) (parity d).
Definition set_dcnt (k : Z) (d : decoder) : decoder :=
  Decoder (rg d) (state d) (sym_bit d) (data d) k (started d) (parity d).
Definition set_started (b : bool) (d : decoder) : decoder :=
  Decoder (rg d) (state d) (sym_bit d) (data d) (dcnt d) b (parity d).
Definition set_parity (k : Z) (d : decoder) : decoder :=
  Decoder (rg d) (state d) (sym_bit d) (data d) (dcnt d) (started d) k.

(** The state at the top of the sample loop.  [data] is an uninitialised
    local array of 16 [int]s: its first contents [junk] are arbitrary. *)
Definition init (junk : list Z) : decoder :=
  Decoder ring0 HUNT 0 junk 0 false 0.

(** What the program sends out: text on stdout or stderr, and datagrams
    handed to [udp_send] for the destination given on the command line. *)
Inductive event :=
| Stdout (s : string)
| Stderr (s : string)
| Datagram (s : string).

(** ** HUNT: slide one bit at a time looking for DX *)

(** The assignments made on lock. *)
Definition lock (d : decoder) : decoder :=
  set_parity 0 (set_started false (set_dcnt 0 (set_sym_bit 0 (set_state LOCKED d)))).

(** [while (rcnt >= 10) { ... }]: every turn that does not lock pops one
    bit, so [rcnt] turns are enough. *)
Fixpoint hunt_loop (fuel : nat) (d : decoder) : decoder :=
  match fuel with
  | O => d
  | S k =>
      if 10 <=? rcnt (rg d) then
        if sym_decode (rpeekn 10 (rg d)) =? SYM_DX
        then lock (set_rg (rpopn 10 (rg d)).2 d)
        else hunt_loop k (set_rg (rpop (rg d)).2 d)
      else d
  end.

Definition hunt (d : decoder) : decoder :=
  hunt_loop (Z.to_nat (rcnt (rg d))) d.

(** ** Emission of the digit string *)

Definition nl : string := String (ascii_of_nat 10) EmptyString.

(** [snprintf(.., "%02d", n)]: decimal, zero-padded to width two. *)
Definition fmt02d (n : Z) : string :=
  let s := NilZero.string_of_int (Z.to_int n) in
  if (String.length s <? 2)%nat then String "0" s else s.

(** The five [snprintf] calls into [out].  Each call is bounded by what is
    left of the 24 bytes of [out]; values in 0..99 need two characters each,
    so the bound is not met on the values the collector stores. *)
Definition render (l : list Z) : string :=
  String.concat "" (map fmt02d (take 5 l)).

(** [p = (len == 10 && out[0] == '0') ? out+1 : out] *)
Definition strip (out : string) : string :=
  match out with
  | String c rest =>
      if (Z.of_nat (String.length out) =? 10) && Ascii.eqb c "0" then rest else out
  | EmptyString => out
  end.

(** [if (dcnt == 5) { ... }] *)
Definition emit (d : decoder) : decoder * list event :=
  if dcnt d =? 5 then
    let p := strip (render (data d)) in
    (set_started false (set_dcnt 0 (set_state HUNT d)),
     [Stdout ("ATIS: " ++ p ++ nl)%string; Datagram (p ++ nl)%string])
  else (d, []).

(** ** The read/skip collector *)

(** [if (!started) { if (v > 99) continue; started = 1; parity = 0; }];
    [None] stands for [continue]. *)
Definition first_data (v : Z) (d : decoder) : option decoder :=
  if started d then Some d
  else if 99 <? v then None
  else Some (set_parity 0 (set_started true d)).

(** [if (parity % 2 == 0) { if (v <= 99 && dcnt < 16) data[dcnt++] = v; }
    parity++;] *)
Definition read_skip (v : Z) (d : decoder) : decoder :=
  let d1 :=
    if Z.rem (parity d) 2 =? 0 then
      if (v <=? 99) && (dcnt d <? 16)
      then set_dcnt (dcnt d + 1) (set_data (<[Z.to_nat (dcnt d) := v]> (data d)) d)
      else d
    else d in
  set_parity (parity d1 + 1) d1.

(** The collector proper, up to the test for a full sequence. *)
Definition accept (v : Z) (d : decoder) : option decoder :=
  match first_data v d with
  | None => None
  | Some d1 => Some (read_skip v d1)
  end.

(** Everything after a successful decode. *)
Definition collect (v : Z) (d : decoder) : decoder * list event :=
  match accept v d with
  | None => (d, [])
  | Some d2 => emit d2
  end.

(** The values decoded during one LOCKED phase, delivered in order; the
    collector is not called once the decoder is back in HUNT. *)
Fixpoint collect_all (vs : list Z) (d : decoder) : decoder * list event :=
  match vs with
  | [] => (d, [])
  | v :: vs' =>
      let (d1, e1) := collect v d in
      match state d1 with
      | HUNT => (d1, e1)
      | LOCKED => let (d2, e2) := collect_all vs' d1 in (d2, e1 ++ e2)
      end
  end.

(** ** One classified bit *)

Definition on_bit (bit : bool) (d : decoder) : decoder * list event :=
  let d := set_rg (rpush (Z.b2z bit) (rg d)) d in
  match state d with
  | HUNT => (hunt d, [])
  | LOCKED =>
      let d := set_sym_bit (sym_bit d + 1) d in
      if sym_bit d <? 10 then (d, [])
      else
        let d := set_sym_bit 0 d in
        let (raw, r) := rpopn 10 (rg d) in
        let d := set_rg r d in
        let v := sym_decode raw in
        if v <? 0 then (set_started false (set_dcnt 0 (set_state HUNT d)), [])
        else collect v d
  end.

Fixpoint run_bits (bits : list bool) (d : decoder) : decoder * list event :=
  match bits with
  | [] => (d, [])
  | b :: bits' =>
      let (d1, e1) := on_bit b d in
      let (d2, e2) := run_bits bits' d1 in
      (d2, e1 ++ e2)
  end.

(** ** The sample loop and [main] *)

(** The sample buffer [sb] with its fill count [sn], and the decoder. *)
Record receiver := Receiver { sb : list Z; sn : Z; dec : decoder }.

Section Samples.

(** [goertzel] works in single-precision floating point; the development
    takes it, with the comparison of two of its results, as given. *)
Variable power : Type.
Variable goertzel : list Z -> Z -> Z -> power.
Variable fgt : power -> power -> bool.

(** [goertzel(sb, SPB, MARK_HZ) > goertzel(sb, SPB, SPACE_HZ) ? 1 : 0] *)
Definition classify (w : list Z) : bool :=
  fgt (goertzel w SPB MARK_HZ) (goertzel w SPB SPACE_HZ).

(** One turn of [while (fread(&s, 2, 1, stdin) == 1)]. *)
Definition on_sample (s : Z) (rx : receiver) : receiver * list event :=
  let sb1 := <[Z.to_nat (sn rx) := s]> (sb rx) in
  let sn1 := sn rx + 1 in
  if sn1 <? SPB then (Receiver sb1 sn1 (dec rx), [])
  else
    let (d, ev) := on_bit (classify sb1) (dec rx) in
    (Receiver sb1 0 d, ev).

Fixpoint run_samples (ss : list Z) (rx : receiver) : receiver * list event :=
  match ss with
  | [] => (rx, [])
  | s :: ss' =>
      let (rx1, e1) := on_sample s rx in
      let (rx2, e2) := run_samples ss' rx1 in
      (rx2, e1 ++ e2)
  end.

(** [main]: the exit status and everything sent out.  [argv] holds the
    command-line words, [samples] is the content of stdin, [sb0] and
    [junk] are the first contents of the uninitialised local arrays. *)
Definition main (argv : list string) (sb0 junk : list Z) (samples : list Z)
  : Z * list event :=
  if Z.of_nat (length argv) <? 3
  then (1, [Stderr ("usage: " ++ nth 0 argv "" ++ " <host> <port>" ++ nl)%string])
  else (0, (run_samples samples (Receiver sb0 0 (init junk))).2).

End Samples.

Arguments classify {power} goertzel fgt w.
Arguments on_sample {power} goertzel fgt s rx.
Arguments run_samples {power} goertzel fgt ss rx.
Arguments main {power} goertzel fgt argv sb0 junk samples.

(** ** Concrete states and streams used to exercise the statements *)

(** The first nine bits of the phasing symbol 125, and all ten. *)
Definition dx_head : list bool :=
  [true; false; true; true; true; true; true; false; false].
Definition dx_bits : list bool := dx_head ++ [true].

(** The ten bits of 125 with a wrong check field. *)
Definition bad_bits : list bool :=
  [true; false; true; true; true; true; true; false; true; true].

Definition zeros16 : list Z := replicate 16 0.

(** The bit stream of a sequence of symbol values, built with [encode]. *)
Definition symbols (l : list Z) : list bool :=
  map (fun x => negb (x =? 0)) (concat (map encode l)).

(** The decoder nine bits into the phasing symbol. *)
Definition hunting : decoder := (run_bits dx_head (init zeros16)).1.

(** A decoder just locked, and one holding four of the five values. *)
Definition locked0 : decoder := Decoder ring0 LOCKED 0 zeros16 0 false 0.
Definition collecting : decoder :=
  Decoder ring0 LOCKED 0 ([1; 23; 45; 67] ++ replicate 12 0) 4 true 8.

(** ** The specification's view of the tracker *)

(** The sample stream cut into windows of 20; what is left over at the end,
    fewer than 20 samples, belongs to no window. *)
Fixpoint windows_upto (fuel : nat) (ss : list Z) : list (list Z) :=
  match fuel with
  | O => []
  | S k => if (length ss <? 20)%nat then []
           else take 20 ss :: windows_upto k (drop 20 ss)
  end.

Definition windows (ss : list Z) : list (list Z) := windows_upto (length ss) ss.

(** The buffer after the samples [l] were stored from index [i] on. *)
Fixpoint fill (i : nat) (l : list Z) (buf : list Z) : list Z :=
  match l with
  | [] => buf
  | s :: l' => fill (S i) l' (<[i := s]> buf)
  end.

(** The unconsumed bits of the ring, oldest first. *)
Definition contents (r : ring_t) : list Z := rpeekn (Z.to_nat (rcnt r)) r.

(** The search of section 4.3 on a queue of bits: the rest of the queue and
    whether a lock occurred. *)
Fixpoint hunt_spec (q : list Z) : list Z * bool :=
  match q with
  | [] => ([], false)
  | _ :: q' =>
      if (10 <=? length q)%nat then
        if sym_decode (take 10 q) =? SYM_DX then (drop 10 q, true)
        else hunt_spec q'
      else (q, false)
  end.

(** The collection state of section 4.4. *)
Record collector := Collector {
  c_started : bool;
  c_alt : Z;
  c_out : list Z }.

(** Steps 1 and 2 of section 4.4 for one accepted symbol value. *)
Definition spec_accept (v : Z) (c : collector) : collector :=
  if negb (c_started c) && (99 <? v) then c
  else
    let alt := if c_started c then c_alt c else 0 in
    let out :=
      if Z.even alt && ((v <=? 99) && (length (c_out c) <? 5)%nat)
      then c_out c ++ [v] else c_out c in
    Collector true (alt + 1) out.

(** The collection state held by the decoder. *)
Definition view (d : decoder) : collector :=
  Collector (started d) (parity d) (take (Z.to_nat (dcnt d)) (data d)).

(** A value of 0..99 as two decimal digits. *)
Definition digit (k : Z) : ascii := ascii_of_nat (48 + Z.to_nat k).
Definition two_digits (n : Z) : string :=
  String (digit (n / 10)) (String (digit (n mod 10)) EmptyString).

(** ** Invariants of the reachable states *)

Definition ring_ok (r : ring_t) : Prop :=
  length (ring r) = 256%nat /\ 0 <= rrd r /\ rwr r = rrd r + rcnt r /\ 0 <= rcnt r.

Definition coll_ok (d : decoder) : Prop :=
  0 <= dcnt d <= 4 /\ length (data d) = 16%nat.

Definition inv (d : decoder) : Prop :=
  ring_ok (rg d)
  /\ match state d with
     | HUNT => rcnt (rg d) <= 9 /\ dcnt d = 0 /\ started d = false
     | LOCKED => rcnt (rg d) = sym_bit d /\ sym_bit d <= 9
     end
  /\ coll_ok d
  /\ Forall (fun x => 0 <= x <= 99) (c_out (view d)).

(** Two decoders that differ at most in an alternation counter that will be
    overwritten before it is read. *)
Definition same_but_parity (d1 d2 : decoder) : Prop :=
  rg d1 = rg d2 /\ state d1 = state d2 /\ sym_bit d1 = sym_bit d2
  /\ data d1 = data d2 /\ dcnt d1 = dcnt d2 /\ started d1 = started d2
  /\ (started d1 = true -> parity d1 = parity d2).

(** ** Further notions used for the properties of the whole program *)

(** All groups of [n] bits. *)
Fixpoint bit_groups (n : nat) : list (list Z) :=
  match n with
  | O => [[]]
  | S k => map (cons 0) (bit_groups k) ++ map (cons 1) (bit_groups k)
  end.

(** The group [b] with bit [i] inverted. *)
Definition flip (i : nat) (b : list Z) : list Z := <[i := 1 - nth i b 0]> b.

(** The value [sym_decode] gives for ten classified bits. *)
Definition decode_group (g : list bool) : Z := sym_decode (map Z.b2z g).

(** A symbol group that decodes. *)
Definition valid_group (g : list bool) : Prop :=
  length g = 10%nat /\ 0 <= decode_group g.

(** The ten cells of the phasing symbol. *)
Definition dx_cells : list Z := [1; 0; 1; 1; 1; 1; 1; 0; 0; 1].

(** A string of nine or ten decimal digits. *)
Definition is_digit (c : ascii) : Prop := (48 <= nat_of_ascii c <= 57)%nat.

Definition id_string (p : string) : Prop :=
  (String.length p = 9%nat \/ String.length p = 10%nat)
  /\ Forall is_digit (list_ascii_of_string p).

(** Output made of reports only: each a stdout line and a datagram that
    carry the same identifier. *)
Inductive report_stream : list event -> Prop :=
| reports_nil : report_stream []
| reports_cons (p : string) (rest : list event) :
    id_string p -> report_stream rest ->
    report_stream (Stdout ("ATIS: " ++ p ++ nl)%string
                   :: Datagram (p ++ nl)%string :: rest).

(** Two decoders that agree on everything the program has written: they may
    differ in the cells of [data] beyond the first [dcnt]. *)
Definition same_but_junk (d1 d2 : decoder) : Prop :=
  rg d1 = rg d2 /\ state d1 = state d2 /\ sym_bit d1 = sym_bit d2
  /\ dcnt d1 = dcnt d2 /\ started d1 = started d2 /\ parity d1 = parity d2
  /\ length (data d1) = 16%nat /\ length (data d2) = 16%nat
  /\ 0 <= dcnt d1 <= 4
  /\ take (Z.to_nat (dcnt d1)) (data d1) = take (Z.to_nat (dcnt d2)) (data d2).

(** The one group on which [sym_decode] can return [v], read off its code:
    the data cells are the binary digits of [v], the check cells those of
    [7 - popcount v]. *)
Definition codeword (v : Z) : list Z :=
  map (fun i => Z.b2z (Z.testbit v (Z.of_nat i))) (seq 0 7)
  ++ [Z.b2z (Z.testbit (7 - popcount v) 2); Z.b2z (Z.testbit (7 - popcount v) 1);
      Z.b2z (Z.testbit (7 - popcount v) 0)].

(** The group [b] with the bits at [i] and [j] exchanged. *)
Definition swap (i j : nat) (b : list Z) : list Z :=
  <[i := nth j b 0]> (<[j := nth i b 0]> b).

(** The number written by a string of decimal digits. *)
Definition decimal_value (s : string) : Z :=
  fold_left (fun acc c => 10 * acc + (Z.of_nat (nat_of_ascii c) - 48))
            (list_ascii_of_string s) 0.

(** * Properties *)

Example sym_decode_dx : sym_decode [1;0;1;1;1;1;1;0;0;1] = 125.
Proof. reflexivity. Qed.

Example encode_dx : encode 125 = [1;0;1;1;1;1;1;0;0;1].
Proof. reflexivity. Qed.

Example sym_decode_bad_check : sym_decode [1;0;1;1;1;1;1;0;1;1] = -1.
Proof. reflexivity. Qed.

(** ** Symbol codec *)

Ltac list_of_length H :=
  repeat match type of H with
         | length ?l = _ =>
             destruct l; simpl in H; [discriminate H | ];
             apply Nat.succ_inj in H
         end;
  match type of H with
  | length ?l = 0%nat => destruct l; [clear H | discriminate H]
  end.

Ltac split_bits :=
  repeat match goal with
         | H : Forall is_bit (_ :: _) |- _ => inversion_clear H
         | H : Forall is_bit [] |- _ => clear H
         | H : is_bit _ |- _ => destruct H; subst
         end.

Ltac by_eval := vm_compute; repeat split; try reflexivity; try discriminate.

Ltac bits_ok :=
  repeat first
    [ apply List.Forall_nil
    | apply List.Forall_cons; [first [left; reflexivity | right; reflexivity] | ] ].

Lemma sym_decode_cases (b : list Z) :
  length b = 10%nat -> Forall is_bit b ->
  0 <= weighted_sum b <= 127
  /\ 7 - popcount (weighted_sum b) = zero_count b
  /\ (check_field b = zero_count b -> sym_decode b = weighted_sum b)
  /\ (check_field b <> zero_count b -> sym_decode b = -1).
Proof.
  intros Hlen Hb. list_of_length Hlen. split_bits.
  all: vm_compute; repeat split; intros; try reflexivity; try discriminate;
    congruence.
Qed.

(** C2: on ten bits, [sym_decode] assembles [v] from the first seven bits
    with weights [2^i], takes [zeros = 7 - popcount v] (the number of zero
    data bits) and the check field from the last three bits, most significant
    first; it returns [v], a value of 0..127, exactly when the check field
    equals [zeros], and the failure code [-1], never a value, otherwise. *)
Theorem sym_decode_check_field (b : list Z) :
  length b = 10%nat -> Forall is_bit b ->
  let v := weighted_sum b in
  let zeros := 7 - popcount v in
  let check := check_field b in
  0 <= v <= 127
  /\ zeros = zero_count b
  /\ (sym_decode b = v <-> check = zeros)
  /\ (check <> zeros -> sym_decode b = -1 /\ sym_decode b <> v).
Proof.
  intros Hlen Hb v zeros check.
  destruct (sym_decode_cases b Hlen Hb) as (Hv & Hz & Hok & Hbad).
  subst v zeros check. rewrite Hz.
  split; [exact Hv|]. split; [reflexivity|]. split.
  - split; [|exact Hok].
    intros Hd. destruct (Z.eq_dec (check_field b) (zero_count b)) as [|Hne];
      [assumption|]. rewrite (Hbad Hne) in Hd. lia.
  - intros Hne. split; [exact (Hbad Hne)|]. rewrite (Hbad Hne). lia.
Qed.

Lemma sym_decode_check_field_witness :
  let b := [1;0;1;1;1;1;1;0;0;1] in
  0 <= weighted_sum b <= 127
  /\ 7 - popcount (weighted_sum b) = zero_count b
  /\ (sym_decode b = weighted_sum b <-> check_field b = 7 - popcount (weighted_sum b))
  /\ (check_field b <> 7 - popcount (weighted_sum b) ->
      sym_decode b = -1 /\ sym_decode b <> weighted_sum b).
Proof.
  apply (sym_decode_check_field [1;0;1;1;1;1;1;0;0;1]).
  - reflexivity.
  - bits_ok.
Defined.

Lemma encode_decode_all :
  forallb (fun n => sym_decode (encode (Z.of_nat n)) =? Z.of_nat n) (seq 0 128) = true.
Proof. vm_compute. reflexivity. Qed.

Lemma encode_decode_128 (v : Z) :
  0 <= v <= 127 -> sym_decode (encode v) = v.
Proof.
  intros Hv. pose proof encode_decode_all as H.
  rewrite forallb_forall in H.
  specialize (H (Z.to_nat v)). rewrite Z2Nat.id in H by lia.
  apply Z.eqb_eq, H, in_seq. lia.
Qed.

(** C6: decoding the ten-bit group built by [encode] from a value of 0..99
    succeeds and gives the value back. *)
Theorem decode_encode_roundtrip (v : Z) :
  0 <= v <= 99 -> sym_decode (encode v) = v.
Proof. intros Hv. apply encode_decode_128. lia. Qed.

Lemma decode_encode_roundtrip_witness : sym_decode (encode 42) = 42.
Proof. apply (decode_encode_roundtrip 42). lia. Defined.

(** ** The ring as a queue *)

Lemma slot_mod (k : Z) : 0 <= k -> slot k = Z.to_nat (k mod 256).
Proof. intros Hk. unfold slot, RING. rewrite Z.rem_mod_nonneg by lia. reflexivity. Qed.

Lemma slot_lt (k : Z) : 0 <= k -> (slot k < 256)%nat.
Proof.
  intros Hk. rewrite slot_mod by assumption.
  pose proof (Z.mod_pos_bound k 256). lia.
Qed.

(** Cells less than [RING] apart do not collide. *)
Lemma slot_apart (a b : Z) :
  0 <= b -> b < a -> a - b < 256 -> slot a <> slot b.
Proof.
  intros Hb Hab Hd. rewrite !slot_mod by lia. intros Heq.
  apply Z2Nat.inj in Heq; try (apply Z.mod_pos_bound; lia).
  pose proof (Z.div_mod a 256). pose proof (Z.div_mod b 256). lia.
Qed.

Lemma rpush_ok (b : Z) (r : ring_t) : ring_ok r -> ring_ok (rpush b r).
Proof.
  intros (Hl & Hrd & Hwr & Hc). unfold ring_ok, rpush; simpl.
  rewrite length_insert. lia.
Qed.

Lemma rpop_ok (r : ring_t) : ring_ok r -> 0 < rcnt r -> ring_ok (rpop r).2.
Proof. intros (Hl & Hrd & Hwr & Hc) Hpos. unfold ring_ok, rpop; simpl. lia. Qed.

Lemma rpeek_rpush_old (b i : Z) (r : ring_t) :
  ring_ok r -> rcnt r < 256 -> 0 <= i < rcnt r ->
  rpeek i (rpush b r) = rpeek i r.
Proof.
  intros (Hl & Hrd & Hwr & Hc) Hroom Hi. unfold rpeek, rpush; simpl.
  assert (Hne : slot (rwr r) <> slot (rrd r + i)) by (apply slot_apart; lia).
  rewrite !nth_lookup, list_lookup_insert_ne by exact Hne. reflexivity.
Qed.

Lemma rpeek_rpush_new (b : Z) (r : ring_t) :
  ring_ok r -> rpeek (rcnt r) (rpush b r) = b mod 256.
Proof.
  intros (Hl & Hrd & Hwr & Hc). unfold rpeek, rpush; simpl.
  rewrite <- Hwr, nth_lookup, list_lookup_insert_eq; [reflexivity|].
  rewrite Hl. apply slot_lt. lia.
Qed.

Lemma contents_rpush (b : Z) (r : ring_t) :
  ring_ok r -> rcnt r < 256 ->
  contents (rpush b r) = contents r ++ [b mod 256].
Proof.
  intros Hok Hroom. pose proof Hok as (Hl & Hrd & Hwr & Hc).
  unfold contents, rpeekn.
  replace (Z.to_nat (rcnt (rpush b r))) with (S (Z.to_nat (rcnt r)))
    by (simpl; lia).
  rewrite seq_S, map_app. simpl. f_equal.
  - apply map_ext_in. intros i Hi. apply in_seq in Hi.
    apply rpeek_rpush_old; [assumption|assumption|lia].
  - rewrite Z2Nat.id by lia. rewrite rpeek_rpush_new by assumption. reflexivity.
Qed.

Lemma rpeek_rpop (i : Z) (r : ring_t) : rpeek i (rpop r).2 = rpeek (i + 1) r.
Proof. unfold rpeek, rpop; simpl. f_equal. f_equal. lia. Qed.

Lemma contents_rpop (r : ring_t) :
  0 < rcnt r -> contents r = (rpop r).1 :: contents (rpop r).2.
Proof.
  intros Hpos. unfold contents, rpeekn.
  replace (Z.to_nat (rcnt r)) with (S (Z.to_nat (rcnt (rpop r).2)))
    by (simpl; lia).
  cbn [seq map]. rewrite <- seq_shift, map_map. f_equal.
  - unfold rpop, rpeek; simpl. f_equal. f_equal. lia.
  - apply map_ext. intros i. rewrite rpeek_rpop. f_equal. lia.
Qed.

Lemma rpop_rcnt (r : ring_t) : rcnt (rpop r).2 = rcnt r - 1.
Proof. reflexivity. Qed.

Lemma rpopn_S (n : nat) (r : ring_t) :
  rpopn (S n) r =
  ((rpop r).1 :: (rpopn n (rpop r).2).1, (rpopn n (rpop r).2).2).
Proof.
  change (rpopn (S n) r)
    with (let (x, r1) := rpop r in
          let (xs, r2) := rpopn n r1 in (x :: xs, r2)).
  destruct (rpop r) as [x r1]. simpl. destruct (rpopn n r1). reflexivity.
Qed.

Lemma rpopn_spec (n : nat) (r : ring_t) :
  ring_ok r -> Z.of_nat n <= rcnt r ->
  (rpopn n r).1 = take n (contents r)
  /\ contents (rpopn n r).2 = drop n (contents r)
  /\ rcnt (rpopn n r).2 = rcnt r - Z.of_nat n
  /\ ring_ok (rpopn n r).2.
Proof.
  revert r. induction n as [|n IH]; intros r Hok Hn.
  - simpl. rewrite take_0, drop_0. repeat split; [lia|apply Hok..].
  - assert (Hpos : 0 < rcnt r) by lia.
    specialize (IH (rpop r).2 (rpop_ok r Hok Hpos)).
    rewrite rpop_rcnt in IH. destruct IH as (H1 & H2 & H3 & H4); [lia|].
    rewrite rpopn_S, (contents_rpop r Hpos). cbn [fst snd take drop].
    rewrite H1. repeat split; [assumption|lia|apply H4..].
Qed.

Lemma length_contents (r : ring_t) : length (contents r) = Z.to_nat (rcnt r).
Proof. unfold contents, rpeekn. rewrite length_map, length_seq. reflexivity. Qed.

Lemma rpeekn_contents (n : nat) (r : ring_t) :
  Z.of_nat n <= rcnt r -> rpeekn n r = take n (contents r).
Proof.
  intros Hn. unfold contents, rpeekn.
  rewrite firstn_map, take_seq. f_equal. f_equal. lia.
Qed.

(** ** HUNT *)

Lemma hunt_spec_length (q : list Z) :
  if (hunt_spec q).2
  then (length (hunt_spec q).1 + 10 <= length q)%nat
  else (length (hunt_spec q).1 < 10)%nat /\ (length (hunt_spec q).1 <= length q)%nat.
Proof.
  induction q as [|x q IH]; [simpl; lia|].
  cbn [hunt_spec]. destruct (10 <=? length (x :: q))%nat eqn:Hlen.
  - destruct (sym_decode (take 10 (x :: q)) =? SYM_DX).
    + cbn [fst snd]. rewrite length_drop. apply Nat.leb_le in Hlen. lia.
    + destruct (hunt_spec q).2; simpl length; lia.
  - apply Nat.leb_gt in Hlen. cbn [fst snd]. lia.
Qed.

(** The loop of the source searches the queue of unconsumed bits as
    [hunt_spec] does, and touches the other variables only on lock. *)
Lemma hunt_loop_spec (fuel : nat) (d : decoder) :
  ring_ok (rg d) -> rcnt (rg d) <= Z.of_nat fuel ->
  let d' := hunt_loop fuel d in
  let res := hunt_spec (contents (rg d)) in
  contents (rg d') = res.1
  /\ ring_ok (rg d')
  /\ d' = (if res.2 then lock (set_rg (rg d') d) else set_rg (rg d') d).
Proof.
  revert d. induction fuel as [|k IH]; intros d Hok Hfuel; cbn zeta.
  - assert (Hz : rcnt (rg d) = 0) by (destruct Hok as (_ & _ & _ & ?); lia).
    assert (Hc : contents (rg d) = []).
    { apply length_zero_iff_nil. rewrite length_contents, Hz. reflexivity. }
    rewrite Hc. simpl. split; [assumption|]. split; [assumption|].
    destruct d; reflexivity.
  - cbn [hunt_loop]. destruct (10 <=? rcnt (rg d)) eqn:Hten.
    + apply Z.leb_le in Hten.
      assert (Hpos : 0 < rcnt (rg d)) by lia.
      pose proof (length_contents (rg d)) as Hlen.
      rewrite (rpeekn_contents 10 (rg d)) by lia.
      destruct (contents (rg d)) as [|x q] eqn:Hc; [simpl in Hlen; lia|].
      cbn [hunt_spec].
      replace (10 <=? length (x :: q))%nat with true
        by (symmetry; apply Nat.leb_le; lia).
      destruct (sym_decode (take 10 (x :: q)) =? SYM_DX).
      * destruct (rpopn_spec 10 (rg d) Hok) as (_ & H2 & _ & H4); [lia|].
        cbn [fst snd]. rewrite <- Hc.
        split; [exact H2|]. split; [exact H4|]. reflexivity.
      * pose proof (contents_rpop (rg d) Hpos) as Hpop. rewrite Hc in Hpop.
        assert (Hq : q = contents (rpop (rg d)).2) by congruence.
        specialize (IH (set_rg (rpop (rg d)).2 d)).
        cbn zeta in IH. change (rg (set_rg (rpop (rg d)).2 d))
          with (rpop (rg d)).2 in IH.
        rewrite <- Hq in IH. apply IH.
        -- apply rpop_ok; assumption.
        -- rewrite rpop_rcnt. lia.
    + apply Z.leb_gt in Hten.
      pose proof (length_contents (rg d)) as Hlen.
      assert (Hres : hunt_spec (contents (rg d)) = (contents (rg d), false)).
      { destruct (contents (rg d)) as [|x q]; [reflexivity|].
        cbn [hunt_spec].
        replace (10 <=? length (x :: q))%nat with false
          by (symmetry; apply Nat.leb_gt; lia).
        reflexivity. }
      rewrite Hres. cbn [fst snd]. split; [reflexivity|].
      split; [assumption|]. destruct d; reflexivity.
Qed.

Lemma hunt_correct (d : decoder) :
  ring_ok (rg d) ->
  let d' := hunt d in
  let res := hunt_spec (contents (rg d)) in
  contents (rg d') = res.1
  /\ ring_ok (rg d')
  /\ d' = (if res.2 then lock (set_rg (rg d') d) else set_rg (rg d') d).
Proof.
  intros Hok. apply hunt_loop_spec; [assumption|].
  destruct Hok as (_ & _ & _ & ?). lia.
Qed.

Lemma hunt_step (bit : bool) (d : decoder) :
  ring_ok (rg d) -> rcnt (rg d) < 256 -> state d = HUNT ->
  let d' := (on_bit bit d).1 in
  let res := hunt_spec (contents (rg d) ++ [Z.b2z bit]) in
  (on_bit bit d).2 = []
  /\ contents (rg d') = res.1
  /\ data d' = data d
  /\ if res.2
     then state d' = LOCKED /\ sym_bit d' = 0 /\ dcnt d' = 0
          /\ started d' = false /\ parity d' = 0
     else state d' = HUNT /\ sym_bit d' = sym_bit d /\ dcnt d' = dcnt d
          /\ started d' = started d /\ parity d' = parity d
          /\ (length (contents (rg d')) < 10)%nat.
Proof.
  intros Hok Hroom Hst. unfold on_bit. cbn zeta.
  change (state (set_rg (rpush (Z.b2z bit) (rg d)) d)) with (state d).
  rewrite Hst. cbn [fst snd].
  set (d1 := set_rg (rpush (Z.b2z bit) (rg d)) d).
  assert (Hok1 : ring_ok (rg d1)) by (apply rpush_ok; assumption).
  destruct (hunt_correct d1 Hok1) as (Hc & _ & Hd). cbn zeta in Hc, Hd.
  assert (Hq : contents (rg d1) = contents (rg d) ++ [Z.b2z bit]).
  { unfold d1. cbn [rg set_rg]. rewrite contents_rpush by assumption.
    destruct bit; reflexivity. }
  rewrite Hq in Hc, Hd. split; [reflexivity|]. split; [exact Hc|].
  pose proof (hunt_spec_length (contents (rg d) ++ [Z.b2z bit])) as Hl.
  destruct (hunt_spec (contents (rg d) ++ [Z.b2z bit])).2.
  - rewrite Hd. repeat split; reflexivity.
  - rewrite Hc. rewrite Hd. cbn. rewrite Hst. repeat split; try reflexivity.
    apply Hl.
Qed.

(** C1: in HUNT, the bit is appended to the ring and the queue of unconsumed
    bits is searched as section 4.3 says ([hunt_spec]): while it holds ten
    bits or more, the oldest ten are decoded in place; on the value 125
    exactly those ten are consumed and the decoder is LOCKED with the bit
    offset, the digit count, the started flag and the alternation counter
    reset; otherwise the oldest bit alone is dropped and the search goes on,
    until fewer than ten bits are left.  Nothing is sent out. *)
Theorem hunt_on_bit (bit : bool) (d : decoder) :
  ring_ok (rg d) -> rcnt (rg d) < 256 -> state d = HUNT ->
  let d' := (on_bit bit d).1 in
  let res := hunt_spec (contents (rg d) ++ [Z.b2z bit]) in
  (on_bit bit d).2 = []
  /\ contents (rg d') = res.1
  /\ data d' = data d
  /\ if res.2
     then state d' = LOCKED /\ sym_bit d' = 0 /\ dcnt d' = 0
          /\ started d' = false /\ parity d' = 0
     else state d' = HUNT /\ sym_bit d' = sym_bit d /\ dcnt d' = dcnt d
          /\ started d' = started d /\ parity d' = parity d
          /\ (length (contents (rg d')) < 10)%nat.
Proof. exact (hunt_step bit d). Qed.

Lemma hunt_on_bit_witness :
  ring_ok (rg hunting) /\ rcnt (rg hunting) < 256 /\ state hunting = HUNT
  /\ (on_bit true hunting).2 = []
  /\ contents (rg (on_bit true hunting).1) = []
  /\ state (on_bit true hunting).1 = LOCKED
  /\ sym_bit (on_bit true hunting).1 = 0.
Proof.
  assert (H1 : ring_ok (rg hunting)) by by_eval.
  assert (H2 : rcnt (rg hunting) < 256) by by_eval.
  assert (H3 : state hunting = HUNT) by reflexivity.
  pose proof (hunt_on_bit true hunting H1 H2 H3) as (He & Hc & _ & Hres).
  change (hunt_spec (contents (rg hunting) ++ [Z.b2z true])) with ([] : list Z, true)
    in Hc, Hres.
  cbn [fst snd] in Hc, Hres. destruct Hres as (Hs & Hb & _).
  repeat split; assumption || apply H1.
Defined.

(** ** The collector *)

Lemma rem2_even (p : Z) : (Z.rem p 2 =? 0) = Z.even p.
Proof.
  rewrite Zquot.Zrem_even. destruct (Z.even p) eqn:He; [reflexivity|].
  apply Z.eqb_neq. destruct p; simpl in *; congruence.
Qed.

Lemma take_store (l : list Z) (n : Z) (v : Z) :
  0 <= n -> (Z.to_nat n < length l)%nat ->
  take (Z.to_nat (n + 1)) (<[Z.to_nat n := v]> l) = take (Z.to_nat n) l ++ [v].
Proof.
  intros Hn Hlen. replace (Z.to_nat (n + 1)) with (S (Z.to_nat n)) by lia.
  rewrite (take_S_r _ _ v) by (apply list_lookup_insert_eq; assumption).
  rewrite take_insert_ge by lia. reflexivity.
Qed.

Lemma view_dcnt (d : decoder) :
  0 <= dcnt d -> (Z.to_nat (dcnt d) <= length (data d))%nat ->
  length (c_out (view d)) = Z.to_nat (dcnt d).
Proof. intros H0 Hl. cbn. rewrite length_take. lia. Qed.

Ltac fields :=
  unfold lock, set_rg, set_state, set_sym_bit, set_data, set_dcnt,
    set_started, set_parity in *;
  cbn [rg state sym_bit data dcnt started parity fst snd
       c_started c_alt c_out] in *.

Lemma read_skip_view (v : Z) (d : decoder) :
  coll_ok d ->
  let d2 := read_skip v d in
  view d2 =
    Collector (started d) (parity d + 1)
      (if Z.even (parity d) && (v <=? 99)
       then c_out (view d) ++ [v] else c_out (view d))
  /\ rg d2 = rg d /\ state d2 = state d /\ sym_bit d2 = sym_bit d
  /\ 0 <= dcnt d2 <= 5 /\ length (data d2) = 16%nat
  /\ started d2 = started d.
Proof.
  intros ((Hd0 & Hd4) & Hlen). cbn zeta. unfold read_skip.
  assert (Hg : (dcnt d <? 16) = true) by (apply Z.ltb_lt; lia).
  rewrite rem2_even, Hg, andb_true_r.
  destruct (Z.even (parity d)), (v <=? 99); cbn [andb]; unfold view; fields;
    rewrite ?take_store, ?length_insert by lia;
    repeat split; try reflexivity; lia.
Qed.

(** One symbol value: the source against steps 1 and 2 of section 4.4. *)
Lemma accept_spec (v : Z) (d : decoder) :
  coll_ok d ->
  match accept v d with
  | None => spec_accept v (view d) = view d /\ started d = false /\ 99 < v
  | Some d2 =>
      view d2 = spec_accept v (view d)
      /\ rg d2 = rg d /\ state d2 = state d /\ sym_bit d2 = sym_bit d
      /\ 0 <= dcnt d2 <= 5 /\ length (data d2) = 16%nat
      /\ started d2 = true
  end.
Proof.
  intros Hok. pose proof Hok as ((Hd0 & Hd4) & Hlen).
  assert (Hs : (length (c_out (view d)) <? 5)%nat = true).
  { apply Nat.ltb_lt. rewrite view_dcnt; lia. }
  unfold accept, first_data, spec_accept. rewrite Hs, andb_true_r.
  change (c_started (view d)) with (started d).
  change (c_alt (view d)) with (parity d).
  destruct (started d) eqn:Hst; cbn [negb andb].
  - destruct (read_skip_view v d Hok) as (Hv & Hrest). cbn zeta in Hv, Hrest.
    rewrite Hv, Hst. split; [reflexivity|]. rewrite <- Hst. exact Hrest.
  - destruct (99 <? v) eqn:Hv.
    + apply Z.ltb_lt in Hv. split; [reflexivity|]. split; [reflexivity|lia].
    + apply Z.ltb_ge in Hv.
      destruct (read_skip_view v (set_parity 0 (set_started true d)))
        as (Hw & Hrest); [exact Hok|].
      cbn zeta in Hw, Hrest. rewrite Hw. split; [reflexivity|exact Hrest].
Qed.

Lemma emit_idle (d : decoder) : dcnt d <> 5 -> emit d = (d, []).
Proof. intros Hn. unfold emit. apply Z.eqb_neq in Hn. rewrite Hn. reflexivity. Qed.

Lemma spec_accept_grows (v : Z) (c : collector) :
  (length (c_out c) <= length (c_out (spec_accept v c)))%nat.
Proof.
  unfold spec_accept.
  destruct (negb (c_started c) && (99 <? v)); [lia|].
  cbn [c_out]. destruct (Z.even _ && _); rewrite ?length_app; simpl; lia.
Qed.

Lemma foldl_spec_accept_grows (vs : list Z) (c : collector) :
  (length (c_out c) <= length (c_out (foldl (fun c v => spec_accept v c) c vs)))%nat.
Proof.
  revert c. induction vs as [|v vs IH]; intros c; simpl; [lia|].
  specialize (IH (spec_accept v c)). pose proof (spec_accept_grows v c). lia.
Qed.

(** C3: the values decoded while LOCKED drive the collection state as steps
    1 and 2 of section 4.4 say ([spec_accept]): until the started flag is
    set a value above 99 is ignored; the first value of at most 99 sets the
    flag, zeroes the alternation counter and is read; from then on a value is
    appended on an even counter, if it is at most 99 and fewer than five
    values are held, and dropped on an odd one, and the counter goes up by
    one either way.  This holds for every sequence of values, up to and
    including the value that completes the sequence of five. *)
Theorem collect_follows_spec (vs : list Z) (v : Z) (d : decoder) :
  coll_ok d -> state d = LOCKED ->
  let c := foldl (fun c v => spec_accept v c) (view d) vs in
  (length (c_out c) < 5)%nat ->
  let d1 := (collect_all vs d).1 in
  (collect_all vs d).2 = []
  /\ state d1 = LOCKED
  /\ view d1 = c
  /\ view (default d1 (accept v d1)) = spec_accept v c.
Proof.
  revert d. induction vs as [|w vs IH]; intros d Hok Hst; cbn zeta.
  - intros _. cbn [collect_all foldl fst snd].
    split; [reflexivity|]. split; [assumption|]. split; [reflexivity|].
    pose proof (accept_spec v d Hok) as Ha.
    destruct (accept v d); cbn [default]; [apply Ha|symmetry; apply Ha].
  - cbn [foldl]. intros Hlt.
    pose proof (foldl_spec_accept_grows vs (spec_accept w (view d))) as Hg.
    pose proof (accept_spec w d Hok) as Ha.
    cbn [collect_all]. unfold collect.
    destruct (accept w d) as [d2|].
    + destruct Ha as (Hv & _ & Hs2 & _ & Hd2 & Hl2 & _).
      assert (Hn5 : dcnt d2 <> 5).
      { intros H5. rewrite <- Hv in Hg, Hlt.
        rewrite view_dcnt in Hg by (rewrite ?Hl2; lia). lia. }
      rewrite (emit_idle d2 Hn5), Hs2, Hst.
      specialize (IH d2). cbn zeta in IH. rewrite Hv in IH.
      destruct IH as (He & IH); [split; [lia|assumption]|congruence|assumption|].
      destruct (collect_all vs d2) as [d3 e3]. cbn [fst snd] in *.
      split; [assumption|exact IH].
    + destruct Ha as (Hv & _). rewrite Hst.
      specialize (IH d). cbn zeta in IH. rewrite Hv in Hlt.
      destruct IH as (He & IH); [assumption..|].
      destruct (collect_all vs d) as [d3 e3]. cbn [fst snd] in *.
      rewrite Hv. split; [assumption|exact IH].
Qed.

Lemma collect_follows_spec_witness :
  coll_ok locked0 /\ state locked0 = LOCKED
  /\ (collect_all [120; 12; 104; 34] locked0).2 = []
  /\ view (collect_all [120; 12; 104; 34] locked0).1 = Collector true 3 [12; 34]
  /\ view (default (collect_all [120; 12; 104; 34] locked0).1
                   (accept 56 (collect_all [120; 12; 104; 34] locked0).1))
     = Collector true 4 [12; 34].
Proof.
  assert (H1 : coll_ok locked0) by by_eval.
  assert (H2 : state locked0 = LOCKED) by reflexivity.
  pose proof (collect_follows_spec [120; 12; 104; 34] 56 locked0 H1 H2) as H.
  cbn zeta in H.
  change (foldl (fun c v => spec_accept v c) (view locked0) [120; 12; 104; 34])
    with (Collector true 3 [12; 34]) in H.
  destruct H as (He & _ & Hv & Hn); [cbn; lia|].
  change (spec_accept 56 (Collector true 3 [12; 34]))
    with (Collector true 4 [12; 34]) in Hn.
  repeat split; assumption || apply H1.
Defined.

(** ** Emission *)

Lemma fmt02d_all :
  forallb (fun n => String.eqb (fmt02d (Z.of_nat n)) (two_digits (Z.of_nat n)))
          (seq 0 100) = true.
Proof. vm_compute. reflexivity. Qed.

Lemma fmt02d_two_digits (n : Z) : 0 <= n <= 99 -> fmt02d n = two_digits n.
Proof.
  intros Hn. pose proof fmt02d_all as H. rewrite forallb_forall in H.
  specialize (H (Z.to_nat n)). rewrite Z2Nat.id in H by lia.
  apply String.eqb_eq, H, in_seq. lia.
Qed.

Lemma render_two_digits (l : list Z) :
  Forall (fun x => 0 <= x <= 99) (take 5 l) ->
  render l = String.concat "" (map two_digits (take 5 l)).
Proof.
  intros Hr. unfold render. f_equal. apply map_ext_in.
  intros x Hx. apply fmt02d_two_digits.
  rewrite List.Forall_forall in Hr. apply Hr, Hx.
Qed.

Lemma length_two_digits_5 (l : list Z) :
  length l = 5%nat ->
  String.length (String.concat "" (map two_digits l)) = 10%nat.
Proof. intros Hl. list_of_length Hl. reflexivity. Qed.

Lemma strip_leading_zero (s : string) :
  String.length (String "0" s) = 10%nat -> strip (String "0" s) = s.
Proof. intros Hl. unfold strip. rewrite Hl. reflexivity. Qed.

Lemma strip_other (s : string) :
  String.length s <> 10%nat \/ String.get 0 s <> Some "0"%char -> strip s = s.
Proof.
  intros H. destruct s as [|c s]; [reflexivity|]. unfold strip.
  destruct (Z.of_nat (String.length (String c s)) =? 10) eqn:Hl;
    [|reflexivity].
  destruct (Ascii.eqb c "0") eqn:Hc; [|reflexivity].
  apply Z.eqb_eq in Hl. apply Ascii.eqb_eq in Hc. subst c.
  destruct H as [H|H]; [lia|]. simpl in H. congruence.
Qed.

Example strip_0123456789 : strip "0123456789" = "123456789"%string.
Proof. reflexivity. Qed.

(** ** Invariants *)

Lemma init_inv (junk : list Z) : length junk = 16%nat -> inv (init junk).
Proof.
  intros Hj. unfold inv, init, coll_ok, ring_ok, ring0, view; fields.
  cbn [ring rwr rrd rcnt Z.to_nat take]. rewrite length_replicate.
  repeat split; try lia; try assumption. constructor.
Qed.

Lemma collecting_inv : inv collecting.
Proof.
  unfold inv, coll_ok, ring_ok.
  split; [by_eval|]. split; [by_eval|]. split; [by_eval|].
  vm_compute. repeat (constructor; [split; discriminate|]). constructor.
Qed.

Lemma range_nil (d : decoder) :
  dcnt d = 0 -> Forall (fun x => 0 <= x <= 99) (c_out (view d)).
Proof. intros H0. unfold view. cbn [c_out]. rewrite H0. constructor. Qed.

Lemma spec_accept_range (v : Z) (c : collector) :
  0 <= v -> Forall (fun x => 0 <= x <= 99) (c_out c) ->
  Forall (fun x => 0 <= x <= 99) (c_out (spec_accept v c)).
Proof.
  intros Hv Hr. unfold spec_accept.
  destruct (negb _ && _); [assumption|]. cbn [c_out].
  destruct (Z.even _ && _) eqn:Hc; [|assumption].
  apply Forall_app. split; [assumption|]. repeat constructor; [lia|].
  apply andb_prop in Hc as [_ Hc]. apply andb_prop in Hc as [Hc _]. lia.
Qed.

Lemma collect_inv (v : Z) (d : decoder) :
  0 <= v -> state d = LOCKED -> sym_bit d = 0 -> inv d ->
  inv (collect v d).1.
Proof.
  intros Hv Hst Hsb Hinv. pose proof Hinv as (Hring & Hm & Hok & Hr).
  rewrite Hst in Hm. destruct Hm as (Hc & _). rewrite Hsb in Hc.
  pose proof (accept_spec v d Hok) as Ha. unfold collect.
  destruct (accept v d) as [d2|]; [|exact Hinv].
  destruct Ha as (Hview & Hrg & Hs2 & Hb2 & Hd2 & Hl2 & _).
  assert (Hr2 : Forall (fun x => 0 <= x <= 99) (c_out (view d2))).
  { rewrite Hview. apply spec_accept_range; assumption. }
  unfold emit. destruct (dcnt d2 =? 5) eqn:H5; cbn [fst].
  - unfold inv, coll_ok. fields. rewrite Hrg.
    split; [exact Hring|]. split; [repeat split; [lia|reflexivity..]|].
    split; [split; [lia|assumption]|]. apply range_nil. reflexivity.
  - apply Z.eqb_neq in H5. unfold inv, coll_ok.
    rewrite Hrg, Hs2, Hst, Hb2.
    split; [exact Hring|]. split; [split; lia|].
    split; [split; [lia|assumption]|]. exact Hr2.
Qed.

Lemma on_bit_inv (b : bool) (d : decoder) : inv d -> inv (on_bit b d).1.
Proof.
  intros Hinv. pose proof Hinv as (Hring & Hm & (Hd04 & Hl16) & Hr).
  destruct (state d) eqn:Hst.
  - destruct Hm as (Hc & Hd0 & Hs0).
    destruct (hunt_step b d Hring ltac:(lia) Hst) as (_ & Hq & Hdat & Hres).
    cbn zeta in Hq, Hdat, Hres.
    pose proof (hunt_spec_length (contents (rg d) ++ [Z.b2z b])) as Hlen.
    rewrite length_app, length_contents in Hlen. cbn [length] in Hlen.
    assert (Hring' : ring_ok (rg (on_bit b d).1)).
    { unfold on_bit. cbn zeta.
      change (state (set_rg (rpush (Z.b2z b) (rg d)) d)) with (state d).
      rewrite Hst. cbn [fst].
      apply hunt_correct. apply rpush_ok. assumption. }
    pose proof (length_contents (rg (on_bit b d).1)) as Hl'.
    rewrite Hq in Hl'. pose proof Hring' as (_ & _ & _ & Hc0).
    unfold inv, coll_ok. split; [exact Hring'|].
    destruct (hunt_spec (contents (rg d) ++ [Z.b2z b])).2.
    + destruct Hres as (Hs' & Hb' & Hd' & _ & _). rewrite Hs', Hb', Hd', Hdat.
      split; [split; lia|]. split; [split; [lia|assumption]|].
      apply range_nil. assumption.
    + destruct Hres as (Hs' & _ & Hd' & Hsta' & _ & _).
      rewrite Hs', Hd', Hsta', Hdat, Hd0.
      split; [repeat split; [lia|assumption]|]. split; [split; [lia|assumption]|].
      apply range_nil. congruence.
  - destruct Hm as (Hc & Hs9).
    unfold on_bit. cbn zeta.
    change (state (set_rg (rpush (Z.b2z b) (rg d)) d)) with (state d).
    rewrite Hst.
    change (sym_bit (set_sym_bit (sym_bit (set_rg (rpush (Z.b2z b) (rg d)) d) + 1)
                       (set_rg (rpush (Z.b2z b) (rg d)) d)))
      with (sym_bit d + 1).
    set (r1 := rpush (Z.b2z b) (rg d)).
    assert (Hr1 : ring_ok r1) by (apply rpush_ok; assumption).
    assert (Hc1 : rcnt r1 = rcnt (rg d) + 1) by reflexivity.
    destruct (sym_bit d + 1 <? 10) eqn:Hlt.
    + apply Z.ltb_lt in Hlt. cbn [fst]. unfold inv, coll_ok. fields.
      rewrite Hst.
      split; [exact Hr1|]. split; [split; lia|].
      split; [split; [lia|assumption]|]. exact Hr.
    + apply Z.ltb_ge in Hlt.
      destruct (rpopn_spec 10 r1 Hr1) as (_ & _ & Hcnt & Hok2); [lia|].
      change (rg (set_sym_bit 0 (set_sym_bit (sym_bit (set_rg r1 d) + 1) (set_rg r1 d))))
        with r1.
      destruct (rpopn 10 r1) as [raw r2]. cbn [snd] in Hcnt, Hok2.
      assert (Hc2 : rcnt r2 = 0) by lia.
      destruct (sym_decode raw <? 0) eqn:Hv.
      * cbn [fst]. unfold inv, coll_ok. fields.
        split; [exact Hok2|]. split; [repeat split; [lia|reflexivity..]|].
        split; [split; [lia|assumption]|]. apply range_nil. reflexivity.
      * apply Z.ltb_ge in Hv.
        apply collect_inv; [assumption|exact Hst|reflexivity|].
        unfold inv, coll_ok. fields. rewrite Hst.
        split; [exact Hok2|]. split; [split; lia|].
        split; [split; [lia|assumption]|]. exact Hr.
Qed.

Lemma run_bits_inv (bits : list bool) (d : decoder) :
  inv d -> inv (run_bits bits d).1.
Proof.
  revert d. induction bits as [|b bits IH]; intros d Hinv; [exact Hinv|].
  cbn [run_bits]. pose proof (on_bit_inv b d Hinv) as H1.
  destruct (on_bit b d) as [d1 e1]. specialize (IH d1 H1).
  destruct (run_bits bits d1) as [d2 e2]. exact IH.
Qed.

(** ** A stale alternation counter is never read *)

Lemma same_but_parity_refl (d : decoder) : same_but_parity d d.
Proof. unfold same_but_parity. tauto. Qed.

Lemma same_but_parity_unstarted (p : Z) (d : decoder) :
  started d = false -> same_but_parity (set_parity p d) d.
Proof. intros Hs. unfold same_but_parity. fields. rewrite Hs. repeat split. discriminate. Qed.

Lemma hunt_loop_parity (fuel : nat) (d1 d2 : decoder) :
  same_but_parity d1 d2 ->
  same_but_parity (hunt_loop fuel d1) (hunt_loop fuel d2).
Proof.
  revert d1 d2. induction fuel as [|k IH]; intros d1 d2 Hs; [exact Hs|].
  cbn [hunt_loop]. pose proof Hs as (Hrg & Hst & Hsb & Hda & Hdc & Hsta & Hp).
  rewrite <- Hrg. destruct (10 <=? rcnt (rg d1)); [|exact Hs].
  destruct (sym_decode (rpeekn 10 (rg d1)) =? SYM_DX).
  - unfold same_but_parity. fields. repeat split; assumption.
  - apply IH. unfold same_but_parity. fields. repeat split; assumption.
Qed.

Lemma on_bit_parity (b : bool) (d1 d2 : decoder) :
  same_but_parity d1 d2 ->
  (on_bit b d1).2 = (on_bit b d2).2
  /\ same_but_parity (on_bit b d1).1 (on_bit b d2).1.
Proof.
  intros Hs. destruct d1 as [r m k dat n st p1], d2 as [r' m' k' dat' n' st' p2].
  destruct Hs as (Hrg & Hst & Hsb & Hda & Hdc & Hsta & Hp). fields. subst.
  destruct st'.
  { rewrite Hp by reflexivity. split; [reflexivity|apply same_but_parity_refl]. }
  clear Hp. unfold on_bit. fields. destruct m'.
  - split; [reflexivity|]. unfold hunt. fields.
    apply hunt_loop_parity. unfold same_but_parity. fields.
    repeat split. discriminate.
  - destruct (k' + 1 <? 10).
    + split; [reflexivity|]. unfold same_but_parity. fields.
      repeat split. discriminate.
    + destruct (rpopn 10 _) as [raw r2].
      destruct (sym_decode raw <? 0).
      * split; [reflexivity|]. unfold same_but_parity. fields.
        repeat split. discriminate.
      * unfold collect, accept, first_data. fields.
        destruct (99 <? sym_decode raw).
        -- split; [reflexivity|]. unfold same_but_parity. fields.
           repeat split. discriminate.
        -- split; [reflexivity|apply same_but_parity_refl].
Qed.

Lemma run_bits_parity (bits : list bool) (d1 d2 : decoder) :
  same_but_parity d1 d2 ->
  (run_bits bits d1).2 = (run_bits bits d2).2
  /\ same_but_parity (run_bits bits d1).1 (run_bits bits d2).1.
Proof.
  revert d1 d2. induction bits as [|b bits IH]; intros d1 d2 Hs.
  - split; [reflexivity|exact Hs].
  - cbn [run_bits]. destruct (on_bit_parity b d1 d2 Hs) as (He & Hs1).
    destruct (on_bit b d1) as [d1' e1], (on_bit b d2) as [d2' e2].
    cbn [fst snd] in He, Hs1. destruct (IH d1' d2' Hs1) as (He' & Hs2).
    destruct (run_bits bits d1') as [d1'' e1'], (run_bits bits d2') as [d2'' e2'].
    cbn [fst snd] in *. split; [congruence|exact Hs2].
Qed.

(** Once the started flag is down, nothing the decoder does later depends
    on the value left in the alternation counter. *)
Lemma parity_dead (p : Z) (bits : list bool) (d : decoder) :
  started d = false ->
  (run_bits bits (set_parity p d)).2 = (run_bits bits d).2.
Proof.
  intros Hs. apply run_bits_parity, same_but_parity_unstarted, Hs.
Qed.

(** ** LOCKED: one symbol every ten bits *)

Lemma run_bits_app (l1 l2 : list bool) (d : decoder) :
  run_bits (l1 ++ l2) d =
  ((run_bits l2 (run_bits l1 d).1).1,
   (run_bits l1 d).2 ++ (run_bits l2 (run_bits l1 d).1).2).
Proof.
  revert d. induction l1 as [|b l1 IH]; intros d.
  - cbn. destruct (run_bits l2 d). reflexivity.
  - cbn [app run_bits]. destruct (on_bit b d) as [d1 e1]. rewrite IH.
    destruct (run_bits l1 d1) as [d2 e2]. cbn [fst snd].
    rewrite app_assoc. reflexivity.
Qed.

Lemma pushes_spec (bits : list bool) (r : ring_t) :
  ring_ok r -> rcnt r + Z.of_nat (length bits) <= 256 ->
  ring_ok (pushes bits r)
  /\ rcnt (pushes bits r) = rcnt r + Z.of_nat (length bits)
  /\ contents (pushes bits r) = contents r ++ map Z.b2z bits.
Proof.
  revert r. induction bits as [|b bits IH]; intros r Hok Hroom.
  - cbn. rewrite app_nil_r. repeat split; [apply Hok..|lia].
  - change (pushes (b :: bits) r) with (pushes bits (rpush (Z.b2z b) r)).
    cbn [length map] in *.
    destruct (IH (rpush (Z.b2z b) r)) as (H1 & H2 & H3).
    + apply rpush_ok, Hok.
    + cbn [rcnt rpush]. lia.
    + split; [exact H1|]. split; [rewrite H2; cbn [rcnt rpush]; lia|].
      rewrite H3, contents_rpush by (assumption || lia).
      rewrite <- app_assoc. destruct b; reflexivity.
Qed.

(** Short of the tenth bit only the ring and the bit offset move. *)
Lemma locked_prefix (bits : list bool) (d : decoder) :
  state d = LOCKED -> sym_bit d + Z.of_nat (length bits) < 10 ->
  run_bits bits d =
  (set_sym_bit (sym_bit d + Z.of_nat (length bits))
     (set_rg (pushes bits (rg d)) d), []).
Proof.
  revert d. induction bits as [|b bits IH]; intros d Hst Hlt.
  - cbn. rewrite Z.add_0_r. destruct d; reflexivity.
  - cbn [run_bits length] in *.
    assert (H1 : on_bit b d =
                 (set_sym_bit (sym_bit d + 1) (set_rg (rpush (Z.b2z b) (rg d)) d), [])).
    { unfold on_bit. fields. rewrite Hst.
      replace (sym_bit d + 1 <? 10) with true by (symmetry; apply Z.ltb_lt; lia).
      reflexivity. }
    rewrite H1, IH; [|exact Hst|fields; lia].
    fields. cbn [app]. f_equal. f_equal. lia.
Qed.

(** The tenth bit: the ten bits of the group are popped and decoded. *)
Lemma locked_tenth (b : bool) (d : decoder) :
  ring_ok (rg d) -> state d = LOCKED -> sym_bit d = 9 -> rcnt (rg d) = 9 ->
  let raw := contents (rg d) ++ [Z.b2z b] in
  let r := (rpopn 10 (rpush (Z.b2z b) (rg d))).2 in
  ring_ok r /\ rcnt r = 0
  /\ on_bit b d =
     if sym_decode raw <? 0
     then (set_started false (set_dcnt 0 (set_state HUNT (set_rg r (set_sym_bit 0 d)))), [])
     else collect (sym_decode raw) (set_rg r (set_sym_bit 0 d)).
Proof.
  intros Hok Hst Hsb Hc. cbn zeta.
  assert (Hok1 : ring_ok (rpush (Z.b2z b) (rg d))) by (apply rpush_ok, Hok).
  destruct (rpopn_spec 10 (rpush (Z.b2z b) (rg d)) Hok1) as (H1 & _ & H3 & H4);
    [cbn [rcnt rpush]; lia|].
  split; [exact H4|]. split; [rewrite H3; cbn [rcnt rpush]; lia|].
  assert (Hraw : (rpopn 10 (rpush (Z.b2z b) (rg d))).1 = contents (rg d) ++ [Z.b2z b]).
  { rewrite H1, contents_rpush by (assumption || lia).
    replace (Z.b2z b mod 256) with (Z.b2z b) by (destruct b; reflexivity).
    apply take_ge. rewrite length_app, length_contents. cbn [length]. lia. }
  unfold on_bit. fields. rewrite Hst, Hsb. cbn [Z.add Pos.add Pos.succ Z.ltb Z.compare Pos.compare Pos.compare_cont].
  destruct (rpopn 10 (rpush (Z.b2z b) (rg d))) as [raw r2].
  cbn [fst snd] in *. rewrite Hraw. reflexivity.
Qed.

Lemma run_bits_one (b : bool) (d : decoder) : run_bits [b] d = on_bit b d.
Proof.
  cbn [run_bits]. destruct (on_bit b d) as [d1 e1]. rewrite app_nil_r. reflexivity.
Qed.

Lemma contents_empty (r : ring_t) : rcnt r = 0 -> contents r = [].
Proof.
  intros Hc. apply length_zero_iff_nil. rewrite length_contents, Hc. reflexivity.
Qed.

Lemma locked_short (k : nat) (bits : list bool) (d : decoder) :
  inv d -> state d = LOCKED -> sym_bit d = 0 -> length bits = 10%nat ->
  (k < 10)%nat ->
  let dk := run_bits (take k bits) d in
  dk.2 = [] /\ state dk.1 = LOCKED /\ sym_bit dk.1 = Z.of_nat k
  /\ contents (rg dk.1) = take k (map Z.b2z bits)
  /\ data dk.1 = data d /\ dcnt dk.1 = dcnt d
  /\ started dk.1 = started d /\ parity dk.1 = parity d.
Proof.
  intros (Hring & Hm & _) Hst Hsb Hlen Hk. rewrite Hst in Hm.
  destruct Hm as (Hc & _). rewrite Hsb in Hc. cbn zeta.
  assert (Hlk : length (take k bits) = k) by (rewrite length_take; lia).
  rewrite locked_prefix by (assumption || lia). fields.
  destruct (pushes_spec (take k bits) (rg d) Hring) as (_ & _ & Hcont); [lia|].
  rewrite Hcont, (contents_empty _ Hc), Hsb, Hlk, firstn_map.
  repeat split; try reflexivity; assumption.
Qed.

Lemma locked_full (bits : list bool) (d : decoder) :
  inv d -> state d = LOCKED -> sym_bit d = 0 -> length bits = 10%nat ->
  let raw := map Z.b2z bits in
  exists r, ring_ok r /\ rcnt r = 0 /\
    run_bits bits d =
    if sym_decode raw <? 0
    then (set_started false (set_dcnt 0 (set_state HUNT (set_rg r d))), [])
    else collect (sym_decode raw) (set_rg r d).
Proof.
  intros (Hring & Hm & _) Hst Hsb Hlen. rewrite Hst in Hm.
  destruct Hm as (Hc & _). rewrite Hsb in Hc. cbn zeta.
  assert (Hsplit : exists l9 b, bits = l9 ++ [b] /\ length l9 = 9%nat).
  { list_of_length Hlen.
    match goal with
    | |- context [[?b0; ?b1; ?b2; ?b3; ?b4; ?b5; ?b6; ?b7; ?b8; ?b9]] =>
        exists [b0; b1; b2; b3; b4; b5; b6; b7; b8], b9
    end. split; reflexivity. }
  destruct Hsplit as (l9 & b & -> & Hl9).
  rewrite run_bits_app, run_bits_one, (locked_prefix l9 d) by (assumption || lia).
  cbn [fst snd app]. rewrite <- surjective_pairing, Hsb, Hl9.
  destruct (pushes_spec l9 (rg d) Hring) as (Hok9 & Hc9 & Hcont); [lia|].
  set (d9 := set_sym_bit (0 + Z.of_nat 9) (set_rg (pushes l9 (rg d)) d)).
  destruct (locked_tenth b d9) as (Hr & Hr0 & Hrun);
    [exact Hok9|exact Hst|reflexivity|unfold d9; fields; lia|].
  cbn zeta in Hr, Hr0, Hrun.
  exists (rpopn 10 (rpush (Z.b2z b) (rg d9))).2.
  split; [exact Hr|]. split; [exact Hr0|].
  rewrite Hrun. clear Hrun.
  replace (contents (rg d9) ++ [Z.b2z b])
    with (map Z.b2z (l9 ++ [b])).
  2:{ unfold d9. fields. rewrite Hcont, (contents_empty _ Hc), map_app.
      reflexivity. }
  set (r := (rpopn 10 (rpush (Z.b2z b) (rg d9))).2).
  assert (Hd : set_rg r (set_sym_bit 0 d9) = set_rg r d).
  { unfold d9. destruct d. fields. subst. reflexivity. }
  rewrite Hd.
  reflexivity.
Qed.

(** C4: while LOCKED the decoder takes ten new bits for each decode: over
    the first nine bits of a group only the ring and the bit offset change
    and nothing is decoded or sent; the tenth bit empties the ring and
    decodes exactly these ten bits.  When that decode fails the decoder is
    back in HUNT with the started flag down and the digit sequence empty,
    nothing is sent, and the value left in the alternation counter has no
    effect on anything the decoder does afterwards. *)
Theorem locked_group (bits : list bool) (d : decoder) :
  inv d -> state d = LOCKED -> sym_bit d = 0 -> length bits = 10%nat ->
  let raw := map Z.b2z bits in
  (forall k, (k < 10)%nat ->
     let dk := run_bits (take k bits) d in
     dk.2 = [] /\ state dk.1 = LOCKED /\ sym_bit dk.1 = Z.of_nat k
     /\ contents (rg dk.1) = take k raw
     /\ data dk.1 = data d /\ dcnt dk.1 = dcnt d
     /\ started dk.1 = started d /\ parity dk.1 = parity d)
  /\ (exists r, ring_ok r /\ rcnt r = 0 /\
        run_bits bits d =
        if sym_decode raw <? 0
        then (set_started false (set_dcnt 0 (set_state HUNT (set_rg r d))), [])
        else collect (sym_decode raw) (set_rg r d))
  /\ (sym_decode raw < 0 ->
      let d' := (run_bits bits d).1 in
      (run_bits bits d).2 = []
      /\ state d' = HUNT /\ started d' = false /\ dcnt d' = 0
      /\ c_out (view d') = [] /\ contents (rg d') = []
      /\ forall p more,
           (run_bits more (set_parity p d')).2 = (run_bits more d').2).
Proof.
  intros Hinv Hst Hsb Hlen raw.
  split; [intros k Hk; apply locked_short; assumption|].
  pose proof (locked_full bits d Hinv Hst Hsb Hlen) as Hfull.
  split; [exact Hfull|].
  intros Hneg. destruct Hfull as (r & Hr & Hr0 & Hrun). fold raw in Hrun.
  apply Z.ltb_lt in Hneg. rewrite Hneg in Hrun. rewrite Hrun. cbn zeta.
  cbn [fst snd].
  repeat split; try reflexivity.
  - apply contents_empty, Hr0.
  - intros p more. apply parity_dead. reflexivity.
Qed.

Lemma locked_group_witness :
  inv collecting /\ state collecting = LOCKED /\ sym_bit collecting = 0
  /\ length bad_bits = 10%nat
  /\ sym_decode (map Z.b2z bad_bits) < 0
  /\ (run_bits bad_bits collecting).2 = []
  /\ state (run_bits bad_bits collecting).1 = HUNT
  /\ started (run_bits bad_bits collecting).1 = false
  /\ dcnt (run_bits bad_bits collecting).1 = 0.
Proof.
  assert (Hneg : sym_decode (map Z.b2z bad_bits) < 0) by reflexivity.
  pose proof (locked_group bad_bits collecting collecting_inv eq_refl eq_refl eq_refl)
    as (_ & _ & Hfail).
  destruct (Hfail Hneg) as (He & Hs & Hst & Hd & _).
  split; [exact collecting_inv|]. repeat split; assumption.
Defined.

(** ** Emission of a full sequence *)

Lemma emit_full (v : Z) (d d2 : decoder) :
  inv d -> 0 <= v -> accept v d = Some d2 -> dcnt d2 = 5 ->
  let out := c_out (view d2) in
  let digits := strip (String.concat "" (map two_digits out)) in
  length out = 5%nat
  /\ Forall (fun x => 0 <= x <= 99) out
  /\ collect v d =
     (set_started false (set_dcnt 0 (set_state HUNT d2)),
      [Stdout ("ATIS: " ++ digits ++ nl)%string; Datagram (digits ++ nl)%string]).
Proof.
  intros (_ & _ & Hok & Hr) Hv Hacc H5. cbn zeta.
  pose proof (accept_spec v d Hok) as Ha. rewrite Hacc in Ha.
  destruct Ha as (Hview & _ & _ & _ & _ & Hl2 & _).
  assert (Hr2 : Forall (fun x => 0 <= x <= 99) (c_out (view d2))).
  { rewrite Hview. apply spec_accept_range; assumption. }
  assert (Hout : c_out (view d2) = take 5 (data d2)).
  { unfold view. cbn [c_out]. rewrite H5. reflexivity. }
  split; [rewrite Hout, length_take; lia|]. split; [exact Hr2|].
  unfold collect. rewrite Hacc. unfold emit.
  replace (dcnt d2 =? 5) with true by (symmetry; apply Z.eqb_eq, H5).
  rewrite render_two_digits by (rewrite <- Hout; exact Hr2).
  rewrite Hout. reflexivity.
Qed.

(** C5: when the value just accepted completes a sequence of five, each of
    the five values, all in 0..99, is written as two decimal digits and the
    ten characters are concatenated; the leading character is dropped
    exactly when the string has ten characters and starts with '0'; one line
    ["ATIS: <digits>"] goes to stdout and one datagram ["<digits>"] plus
    newline is sent; the decoder is then back in HUNT with the started flag
    down and the sequence empty, and the value left in the alternation
    counter is never read again.  Short of five values nothing is sent. *)
Theorem emission (v : Z) (d d2 : decoder) :
  inv d -> 0 <= v -> accept v d = Some d2 ->
  let out := c_out (view d2) in
  let raw := String.concat "" (map two_digits out) in
  let digits := strip raw in
  let d' := (collect v d).1 in
  (dcnt d2 = 5 ->
     length out = 5%nat
     /\ Forall (fun x => 0 <= x <= 99) out
     /\ String.length raw = 10%nat
     /\ (collect v d).2 =
        [Stdout ("ATIS: " ++ digits ++ nl)%string; Datagram (digits ++ nl)%string]
     /\ state d' = HUNT /\ dcnt d' = 0 /\ started d' = false
     /\ c_out (view d') = []
     /\ forall p more,
          (run_bits more (set_parity p d')).2 = (run_bits more d').2)
  /\ (dcnt d2 <> 5 -> collect v d = (d2, []))
  /\ (forall s, String.length (String "0" s) = 10%nat -> strip (String "0" s) = s)
  /\ (forall s, String.length s <> 10%nat \/ String.get 0 s <> Some "0"%char ->
                strip s = s).
Proof.
  intros Hinv Hv Hacc out raw digits d'.
  split; [|split; [|split; [exact strip_leading_zero|exact strip_other]]].
  - intros H5.
    destruct (emit_full v d d2 Hinv Hv Hacc H5) as (Hlen & Hr & Hc).
    cbn zeta in Hc. fold out in Hlen, Hr, Hc. fold raw in Hc. fold digits in Hc.
    subst d'. rewrite Hc. cbn [fst snd].
    split; [exact Hlen|]. split; [exact Hr|].
    split; [apply length_two_digits_5, Hlen|]. split; [reflexivity|].
    repeat split; try reflexivity.
    intros p more. apply parity_dead. reflexivity.
  - intros Hn5. unfold collect. rewrite Hacc. apply emit_idle, Hn5.
Qed.

Lemma emission_witness :
  inv collecting /\ 0 <= 89
  /\ (collect 89 collecting).2 =
     [Stdout ("ATIS: 123456789" ++ nl)%string; Datagram ("123456789" ++ nl)%string]
  /\ state (collect 89 collecting).1 = HUNT
  /\ dcnt (collect 89 collecting).1 = 0
  /\ started (collect 89 collecting).1 = false.
Proof.
  assert (Hv : 0 <= 89) by lia.
  assert (Hacc : accept 89 collecting
                 = Some (default collecting (accept 89 collecting))) by reflexivity.
  pose proof (emission 89 collecting _ collecting_inv Hv Hacc) as (Hfull & _).
  destruct (Hfull eq_refl) as (_ & _ & _ & He & Hs & Hd & Hst & _).
  split; [exact collecting_inv|]. split; [exact Hv|].
  split; [exact He|]. repeat split; assumption.
Defined.

(** ** Reachable states *)

Lemma rpopn_rwr (n : nat) (r : ring_t) : rwr (rpopn n r).2 = rwr r.
Proof.
  revert r. induction n as [|n IH]; intros r; [reflexivity|].
  rewrite rpopn_S. cbn [snd]. rewrite IH. reflexivity.
Qed.

Lemma hunt_loop_rwr (fuel : nat) (d : decoder) :
  rwr (rg (hunt_loop fuel d)) = rwr (rg d).
Proof.
  revert d. induction fuel as [|k IH]; intros d; [reflexivity|].
  cbn [hunt_loop]. destruct (10 <=? rcnt (rg d)); [|reflexivity].
  destruct (sym_decode (rpeekn 10 (rg d)) =? SYM_DX).
  - fields. apply rpopn_rwr.
  - rewrite IH. reflexivity.
Qed.

Lemma hunt_loop_data (fuel : nat) (d : decoder) :
  data (hunt_loop fuel d) = data d.
Proof.
  revert d. induction fuel as [|k IH]; intros d; [reflexivity|].
  cbn [hunt_loop]. destruct (10 <=? rcnt (rg d)); [|reflexivity].
  destruct (sym_decode (rpeekn 10 (rg d)) =? SYM_DX); [reflexivity|].
  rewrite IH. reflexivity.
Qed.

Lemma emit_keeps (d : decoder) :
  rg (emit d).1 = rg d /\ data (emit d).1 = data d.
Proof. unfold emit. destruct (dcnt d =? 5); split; reflexivity. Qed.

Lemma accept_keeps (v : Z) (d d2 : decoder) :
  coll_ok d -> accept v d = Some d2 ->
  rg d2 = rg d /\ drop 5 (data d2) = drop 5 (data d).
Proof.
  intros ((Hd0 & Hd4) & Hlen) Hacc. unfold accept, first_data in Hacc.
  assert (forall d1, rg d1 = rg d -> data d1 = data d -> dcnt d1 = dcnt d ->
                     rg (read_skip v d1) = rg d
                     /\ drop 5 (data (read_skip v d1)) = drop 5 (data d)) as Hrs.
  { intros d1 H1 H2 H3. unfold read_skip.
    destruct (Z.rem (parity d1) 2 =? 0); [|fields; rewrite H1, H2; tauto].
    destruct ((v <=? 99) && (dcnt d1 <? 16)); [|fields; rewrite H1, H2; tauto].
    fields. rewrite H1, H2, H3. split; [reflexivity|].
    apply drop_insert_lt. lia. }
  destruct (started d).
  - injection Hacc as <-. apply Hrs; reflexivity.
  - destruct (99 <? v); [discriminate|]. injection Hacc as <-.
    apply Hrs; reflexivity.
Qed.

Lemma collect_keeps (v : Z) (d : decoder) :
  coll_ok d ->
  rg (collect v d).1 = rg d /\ drop 5 (data (collect v d).1) = drop 5 (data d).
Proof.
  intros Hok. unfold collect. destruct (accept v d) as [d2|] eqn:Hacc.
  - destruct (accept_keeps v d d2 Hok Hacc) as (H1 & H2).
    destruct (emit_keeps d2) as (H3 & H4). rewrite H3, H4. tauto.
  - tauto.
Qed.

(** One bit moves the write cursor by one and leaves the cells of [data]
    from index 5 on alone. *)
Lemma on_bit_keeps (b : bool) (d : decoder) :
  inv d ->
  rwr (rg (on_bit b d).1) = rwr (rg d) + 1
  /\ drop 5 (data (on_bit b d).1) = drop 5 (data d).
Proof.
  intros (_ & _ & Hok & _). unfold on_bit. fields. destruct (state d).
  - cbn [fst]. unfold hunt. rewrite hunt_loop_rwr, hunt_loop_data. fields.
    split; reflexivity.
  - destruct (sym_bit d + 1 <? 10); [split; reflexivity|].
    pose proof (rpopn_rwr 10 (rpush (Z.b2z b) (rg d))) as Hw.
    destruct (rpopn 10 (rpush (Z.b2z b) (rg d))) as [raw r2]. cbn [snd] in Hw.
    destruct (sym_decode raw <? 0).
    + cbn [fst]. fields. rewrite Hw. split; reflexivity.
    + match goal with
      | |- context [collect ?v ?d0] =>
          destruct (collect_keeps v d0 Hok) as (H1 & H2)
      end.
      rewrite H1, H2. fields. rewrite Hw. split; reflexivity.
Qed.

Lemma run_bits_keeps (bits : list bool) (d : decoder) :
  inv d ->
  rwr (rg (run_bits bits d).1) = rwr (rg d) + Z.of_nat (length bits)
  /\ drop 5 (data (run_bits bits d).1) = drop 5 (data d).
Proof.
  revert d. induction bits as [|b bits IH]; intros d Hinv.
  - cbn. split; [lia|reflexivity].
  - cbn [run_bits]. pose proof (on_bit_inv b d Hinv) as Hinv1.
    destruct (on_bit_keeps b d Hinv) as (H1 & H2).
    destruct (on_bit b d) as [d1 e1]. cbn [fst] in *.
    destruct (IH d1 Hinv1) as (H3 & H4).
    destruct (run_bits bits d1) as [d2 e2]. cbn [fst length] in *.
    split; [lia|congruence].
Qed.

(** C9: in every state reached after a whole number of bits the ring holds
    at most 9 bits, and at most 10 right after the next push; the write
    cursor has advanced once per bit and stays [rcnt] ahead of the read
    cursor (both within the range of [int] on streams of fewer than 2^31
    bits); so the cell written by a push is none of the cells that hold
    unconsumed bits, and every unconsumed bit reads the same after the push
    as before. *)
Theorem ring_occupancy (junk : list Z) (bits : list bool) :
  length junk = 16%nat ->
  let r := rg (run_bits bits (init junk)).1 in
  0 <= rcnt r <= 9
  /\ (forall b, rcnt (rpush b r) <= 10)
  /\ length (ring r) = 256%nat
  /\ rwr r = Z.of_nat (length bits)
  /\ rrd r = rwr r - rcnt r
  /\ (Z.of_nat (length bits) < 2 ^ 31 -> 0 <= rrd r <= rwr r /\ rwr r < 2 ^ 31)
  /\ forall b i, 0 <= i < rcnt r ->
       slot (rwr r) <> slot (rrd r + i)
       /\ rpeek i (rpush b r) = rpeek i r.
Proof.
  intros Hj r.
  pose proof (run_bits_inv bits (init junk) (init_inv junk Hj)) as Hinv.
  destruct (run_bits_keeps bits (init junk) (init_inv junk Hj)) as (Hw & _).
  destruct Hinv as (Hring & Hm & _). fold r in Hring, Hw.
  pose proof Hring as (Hlen & Hrd & Hwr & Hc).
  assert (H9 : rcnt r <= 9).
  { subst r. destruct (state (run_bits bits (init junk)).1); lia. }
  split; [lia|]. split; [intros b; cbn [rcnt rpush]; lia|].
  assert (Hw' : rwr r = Z.of_nat (length bits)) by (rewrite Hw; cbn; lia).
  split; [exact Hlen|]. split; [exact Hw'|]. split; [lia|]. split; [lia|].
  intros b i Hi. split.
  - apply slot_apart; lia.
  - apply rpeek_rpush_old; [exact Hring|lia..].
Qed.

Lemma ring_occupancy_witness :
  length zeros16 = 16%nat
  /\ 0 <= rcnt (rg (run_bits dx_head (init zeros16)).1) <= 9
  /\ rwr (rg (run_bits dx_head (init zeros16)).1) = 9
  /\ forall b i, 0 <= i < rcnt (rg (run_bits dx_head (init zeros16)).1) ->
       rpeek i (rpush b (rg (run_bits dx_head (init zeros16)).1))
       = rpeek i (rg (run_bits dx_head (init zeros16)).1).
Proof.
  pose proof (ring_occupancy zeros16 dx_head eq_refl)
    as (Hc & _ & _ & Hw & _ & _ & Hp).
  split; [reflexivity|]. split; [exact Hc|]. split; [exact Hw|].
  intros b i Hi. apply Hp, Hi.
Defined.

(** C10: in every reachable state the digit count is within 0..4 between
    bits and within 0..5 right after an append; the sending and the reset
    happen exactly when it is 5; the cells of [data] from index 5 on keep
    their first contents; and the guard [dcnt < 16] of the source decides
    as a guard [dcnt < 5] would. *)
Theorem dcnt_range (junk : list Z) (bits : list bool) :
  length junk = 16%nat ->
  let d := (run_bits bits (init junk)).1 in
  0 <= dcnt d <= 4
  /\ (dcnt d <? 16) = (dcnt d <? 5)
  /\ (forall i, (5 <= i)%nat -> data d !! i = junk !! i)
  /\ forall v d2, accept v d = Some d2 ->
       0 <= dcnt d2 <= 5
       /\ (forall i, (5 <= i)%nat -> data d2 !! i = junk !! i)
       /\ ((collect v d).2 <> [] <-> dcnt d2 = 5)
       /\ (dcnt d2 = 5 -> dcnt (collect v d).1 = 0)
       /\ (dcnt d2 <> 5 -> (collect v d).1 = d2).
Proof.
  intros Hj d.
  pose proof (run_bits_inv bits (init junk) (init_inv junk Hj)) as Hinv.
  destruct (run_bits_keeps bits (init junk) (init_inv junk Hj)) as (_ & Hdat).
  fold d in Hinv, Hdat. change (data (init junk)) with junk in Hdat.
  pose proof Hinv as (_ & _ & Hok & _). pose proof Hok as (Hd & _).
  assert (Htail : forall d0, drop 5 (data d0) = drop 5 junk ->
                  forall i, (5 <= i)%nat -> data d0 !! i = junk !! i).
  { intros d0 H0 i Hi. replace i with (5 + (i - 5))%nat by lia.
    rewrite <- !lookup_drop, H0. reflexivity. }
  split; [exact Hd|]. split.
  { replace (dcnt d <? 16) with true by (symmetry; apply Z.ltb_lt; lia).
    symmetry. apply Z.ltb_lt. lia. }
  split; [apply Htail, Hdat|].
  intros v d2 Hacc.
  pose proof (accept_spec v d Hok) as Ha. rewrite Hacc in Ha.
  destruct Ha as (_ & _ & _ & _ & Hd2 & _).
  destruct (accept_keeps v d d2 Hok Hacc) as (_ & Hdat2).
  split; [exact Hd2|]. split; [apply Htail; congruence|].
  unfold collect. rewrite Hacc. unfold emit.
  destruct (dcnt d2 =? 5) eqn:H5.
  - apply Z.eqb_eq in H5. cbn [fst snd]. fields.
    split; [split; [intros _; exact H5|discriminate]|].
    split; [reflexivity|]. intros Hn. contradiction.
  - apply Z.eqb_neq in H5. cbn [fst snd].
    split; [split; [intros Hn; contradiction|intros Hn; contradiction]|].
    split; [intros Hn; contradiction|reflexivity].
Qed.

Lemma dcnt_range_witness :
  length zeros16 = 16%nat
  /\ 0 <= dcnt (run_bits dx_bits (init zeros16)).1 <= 4
  /\ forall i, (5 <= i)%nat ->
       data (run_bits dx_bits (init zeros16)).1 !! i = zeros16 !! i.
Proof.
  pose proof (dcnt_range zeros16 dx_bits eq_refl) as (Hd & _ & Ht & _).
  split; [reflexivity|]. split; [exact Hd|exact Ht].
Defined.

(** ** The sample loop *)

Lemma SPB_20 : SPB = 20.
Proof. reflexivity. Qed.

Lemma fill_app (i : nat) (l1 l2 buf : list Z) :
  fill i (l1 ++ l2) buf = fill (i + length l1) l2 (fill i l1 buf).
Proof.
  revert i buf. induction l1 as [|s l1 IH]; intros i buf; cbn [app fill length].
  - rewrite Nat.add_0_r. reflexivity.
  - rewrite IH. f_equal. lia.
Qed.

Lemma length_fill (i : nat) (l buf : list Z) :
  length (fill i l buf) = length buf.
Proof.
  revert i buf. induction l as [|s l IH]; intros i buf; [reflexivity|].
  cbn [fill]. rewrite IH. apply length_insert.
Qed.

Lemma fill_spec (i : nat) (l buf : list Z) :
  (i + length l <= length buf)%nat ->
  fill i l buf = take i buf ++ l ++ drop (i + length l) buf.
Proof.
  revert i buf. induction l as [|s l IH]; intros i buf Hlen; cbn [fill length] in *.
  - rewrite Nat.add_0_r. cbn [app]. rewrite take_drop. reflexivity.
  - rewrite IH by (rewrite length_insert; lia).
    rewrite (take_S_r _ _ s) by (apply list_lookup_insert_eq; lia).
    rewrite take_insert_ge by lia. rewrite drop_insert_lt by lia.
    rewrite <- app_assoc. cbn [app].
    replace (S i + length l)%nat with (i + S (length l))%nat by lia. reflexivity.
Qed.

Section SampleProps.

Variable power : Type.
Variable goertzel : list Z -> Z -> Z -> power.
Variable fgt : power -> power -> bool.

Local Abbreviation cls := (classify goertzel fgt).
Local Abbreviation step := (on_sample goertzel fgt).
Local Abbreviation run := (run_samples goertzel fgt).

Lemma run_samples_app (l1 l2 : list Z) (rx : receiver) :
  run (l1 ++ l2) rx =
  ((run l2 (run l1 rx).1).1, (run l1 rx).2 ++ (run l2 (run l1 rx).1).2).
Proof.
  revert rx. induction l1 as [|s l1 IH]; intros rx.
  - cbn. destruct (run l2 rx). reflexivity.
  - cbn [app run_samples]. destruct (step s rx) as [rx1 e1]. rewrite IH.
    destruct (run l1 rx1) as [rx2 e2]. cbn [fst snd].
    rewrite app_assoc. reflexivity.
Qed.

(** Short of a full window the samples are stored and nothing else happens. *)
Lemma run_partial (l : list Z) (rx : receiver) :
  0 <= sn rx -> sn rx + Z.of_nat (length l) < 20 ->
  run l rx =
  (Receiver (fill (Z.to_nat (sn rx)) l (sb rx))
            (sn rx + Z.of_nat (length l)) (dec rx), []).
Proof.
  revert rx. induction l as [|s l IH]; intros rx H0 Hlt.
  - cbn. rewrite Z.add_0_r. destruct rx; reflexivity.
  - cbn [run_samples length fill] in *. unfold on_sample. rewrite SPB_20.
    replace (sn rx + 1 <? 20) with true by (symmetry; apply Z.ltb_lt; lia).
    rewrite IH by (cbn [sn]; lia). cbn [sb sn dec app].
    replace (Z.to_nat (sn rx + 1)) with (S (Z.to_nat (sn rx))) by lia.
    f_equal. f_equal. lia.
Qed.

(** The sample that completes a window yields one bit, classified from the
    twenty samples of that window alone. *)
Lemma run_window (w : list Z) (rx : receiver) :
  sn rx = 0 -> length (sb rx) = 20%nat -> length w = 20%nat ->
  run w rx =
  (Receiver w 0 (on_bit (cls w) (dec rx)).1, (on_bit (cls w) (dec rx)).2).
Proof.
  intros Hsn Hsb Hw.
  assert (Hsplit : exists w19 s, w = w19 ++ [s] /\ length w19 = 19%nat).
  { exists (take 19 w), (nth 19 w 0). split; [|rewrite length_take; lia].
    rewrite <- (take_drop 19 w) at 1. f_equal.
    list_of_length Hw. reflexivity. }
  destruct Hsplit as (w19 & s & Hweq & H19).
  assert (Hfill : <[19%nat := s]> (fill 0 w19 (sb rx)) = w).
  { transitivity (fill 0 (w19 ++ [s]) (sb rx)).
    - rewrite fill_app, H19. reflexivity.
    - rewrite <- Hweq, fill_spec by lia. rewrite Hw, <- Hsb.
      cbn [take app Nat.add]. rewrite drop_all, app_nil_r. reflexivity. }
  rewrite Hweq at 1. rewrite run_samples_app, (run_partial w19 rx) by lia.
  cbn [fst snd app run_samples]. unfold on_sample. cbn [sb sn dec].
  rewrite SPB_20, Hsn, H19.
  replace (0 + Z.of_nat 19 + 1 <? 20) with false by reflexivity.
  replace (Z.to_nat (0 + Z.of_nat 19)) with 19%nat by reflexivity.
  change (Z.to_nat 0) with 0%nat. rewrite Hfill.
  destruct (on_bit (cls w) (dec rx)) as [d ev]. cbn [fst snd].
  rewrite app_nil_r. reflexivity.
Qed.

(** The decoder sees one bit per full window, in order, and nothing else. *)
Lemma run_samples_windows (n : nat) (ss : list Z) (rx : receiver) :
  (length ss <= n)%nat -> sn rx = 0 -> length (sb rx) = 20%nat ->
  let res := run ss rx in
  (dec res.1, res.2) = run_bits (map cls (windows_upto n ss)) (dec rx)
  /\ sn res.1 = Z.of_nat (length ss mod 20)
  /\ length (sb res.1) = 20%nat.
Proof.
  revert ss rx. induction n as [|n IH]; intros ss rx Hn Hsn Hsb; cbn zeta.
  - destruct ss; [|cbn in Hn; lia]. cbn. repeat split; assumption.
  - cbn [windows_upto]. destruct (length ss <? 20)%nat eqn:Hlt.
    + apply Nat.ltb_lt in Hlt. rewrite run_partial by lia.
      cbn [fst snd sn sb dec map run_bits]. rewrite Hsn.
      rewrite Nat.mod_small by lia. split; [reflexivity|]. split; [lia|].
      rewrite length_fill. exact Hsb.
    + apply Nat.ltb_ge in Hlt.
      remember (take 20 ss) as w eqn:Hw. remember (drop 20 ss) as rest eqn:Hrest.
      assert (Hss : ss = w ++ rest) by (subst w rest; symmetry; apply take_drop).
      assert (Ht : length w = 20%nat) by (subst w; rewrite length_take; lia).
      assert (Hrl : (length rest + 20 = length ss)%nat)
        by (subst rest; rewrite length_drop; lia).
      clear Hw Hrest. subst ss.
      rewrite run_samples_app, (run_window w rx) by assumption.
      cbn [fst snd map run_bits].
      specialize (IH rest (Receiver w 0 (on_bit (cls w) (dec rx)).1)).
      cbn zeta in IH. cbn [sn sb dec] in IH.
      destruct IH as (IH1 & IH2 & IH3); [lia|reflexivity|exact Ht|].
      destruct (on_bit (cls w) (dec rx)) as [d1 e1]. cbn [fst snd] in *.
      rewrite <- IH1. split; [reflexivity|]. split; [|exact IH3].
      rewrite IH2. f_equal. rewrite <- Hrl.
      rewrite <- (Nat.Div0.mod_add (length rest) 1 20). f_equal; lia.
Qed.

(** C8: samples left over after the last full window change nothing: they
    are stored in the sample buffer, no bit is classified from them, the
    decoder and everything sent out are as for the full windows alone, and
    [main] returns 0. *)
Theorem truncated_window (argv : list string) (sb0 junk full tail : list Z) :
  length sb0 = 20%nat -> (length full mod 20 = 0)%nat -> (length tail < 20)%nat ->
  let rx0 := Receiver sb0 0 (init junk) in
  let a := run (full ++ tail) rx0 in
  let f := run full rx0 in
  a.2 = f.2
  /\ dec a.1 = dec f.1
  /\ (dec a.1, a.2) = run_bits (map cls (windows full)) (init junk)
  /\ run tail f.1 =
     (Receiver (fill 0 tail (sb f.1)) (Z.of_nat (length tail)) (dec f.1), [])
  /\ main goertzel fgt argv sb0 junk (full ++ tail)
     = main goertzel fgt argv sb0 junk full
  /\ ((3 <= length argv)%nat ->
      (main goertzel fgt argv sb0 junk (full ++ tail)).1 = 0).
Proof.
  intros Hsb Hfull Htail rx0 a f.
  destruct (run_samples_windows (length full) full rx0) as (Hw & Hsn & Hlen);
    [lia|reflexivity|exact Hsb|].
  cbn zeta in Hw, Hsn, Hlen. fold f in Hw, Hsn, Hlen.
  rewrite Hfull in Hsn. change (Z.of_nat 0) with 0 in Hsn.
  assert (Hrun : run tail f.1 =
                 (Receiver (fill 0 tail (sb f.1)) (Z.of_nat (length tail)) (dec f.1), [])).
  { rewrite run_partial by lia. rewrite Hsn. reflexivity. }
  assert (Ha : a = ((run tail f.1).1, f.2 ++ (run tail f.1).2)).
  { subst a f. apply run_samples_app. }
  rewrite Hrun in Ha. cbn [fst snd] in Ha. rewrite app_nil_r in Ha.
  assert (Hev : a.2 = f.2) by (rewrite Ha; reflexivity).
  assert (Hdec : dec a.1 = dec f.1) by (rewrite Ha; reflexivity).
  split; [exact Hev|]. split; [exact Hdec|].
  split; [rewrite Hev, Hdec; exact Hw|]. split; [exact Hrun|].
  unfold main. fold rx0. fold a. fold f. rewrite Hev.
  split; [reflexivity|].
  intros Hargc.
  replace (Z.of_nat (length argv) <? 3) with false
    by (symmetry; apply Z.ltb_ge; lia).
  reflexivity.
Qed.

End SampleProps.

Lemma truncated_window_witness :
  let g := fun (w : list Z) (n hz : Z) => foldr Z.add 0 w * hz in
  length zeros16 = 16%nat
  /\ (length (replicate 40 7) mod 20 = 0)%nat
  /\ (length [1; 2; 3] < 20)%nat
  /\ (run_samples g Z.ltb (replicate 40 7 ++ [1; 2; 3])
        (Receiver (replicate 20 0) 0 (init zeros16))).2
     = (run_samples g Z.ltb (replicate 40 7)
        (Receiver (replicate 20 0) 0 (init zeros16))).2
  /\ (main g Z.ltb ["atis"; "host"; "5005"]%string (replicate 20 0) zeros16
        (replicate 40 7 ++ [1; 2; 3])).1 = 0.
Proof.
  intros g.
  pose proof (truncated_window Z g Z.ltb ["atis"; "host"; "5005"]%string
                (replicate 20 0) zeros16 (replicate 40 7) [1; 2; 3]
                eq_refl eq_refl ltac:(cbn; lia))
    as (He & _ & _ & _ & _ & Hm).
  split; [reflexivity|]. split; [reflexivity|]. split; [cbn; lia|].
  split; [exact He|]. apply Hm. cbn. lia.
Defined.

(** ** Whole bursts *)

(** Two phasing symbols, then five values each followed by a filler symbol:
    one line and one datagram with the same nine digits. *)
Example burst_decoded :
  (run_bits (symbols [125; 125; 1; 120; 23; 120; 45; 120; 67; 120; 89])
            (init zeros16)).2
  = [Stdout ("ATIS: 123456789" ++ nl)%string; Datagram ("123456789" ++ nl)%string].
Proof. vm_compute. reflexivity. Qed.

(** A symbol with a wrong check field while LOCKED throws the decoder back
    to HUNT; the next phasing symbol locks again and the burst that follows
    is decoded. *)
Example resync_after_corruption :
  let d := (run_bits (dx_bits ++ symbols [12] ++ bad_bits) (init zeros16)).1 in
  state d = HUNT
  /\ (run_bits (symbols [125; 98; 120; 76; 120; 54; 120; 32; 120; 10]) d).2
     = [Stdout ("ATIS: 9876543210" ++ nl)%string;
        Datagram ("9876543210" ++ nl)%string].
Proof. vm_compute. split; reflexivity. Qed.

(** The source does not touch [parity] when a decode fails: its old value
    stays in place until the next lock writes 0 over it. *)
Example parity_left_in_place :
  parity (run_bits bad_bits collecting).1 = 8
  /\ parity (run_bits (bad_bits ++ dx_bits) collecting).1 = 0.
Proof. vm_compute. split; reflexivity. Qed.

(** * Further properties of the program *)

(** ** The symbol code as an error-detecting code *)

Lemma bit_groups_complete (b : list Z) :
  Forall is_bit b -> In b (bit_groups (length b)).
Proof.
  induction 1 as [|x b Hx Hb IH]; [left; reflexivity|].
  cbn [length bit_groups]. apply in_or_app.
  destruct Hx as [-> | ->]; [left|right]; apply in_map, IH.
Qed.

(** A property checked on all 1024 groups holds of every group of ten bits. *)
Lemma by_enumeration (P : list Z -> bool) (b : list Z) :
  forallb P (bit_groups 10) = true ->
  length b = 10%nat -> Forall is_bit b -> P b = true.
Proof.
  intros Hall Hlen Hb. rewrite forallb_forall in Hall. apply Hall.
  rewrite <- Hlen. apply bit_groups_complete, Hb.
Qed.

Lemma flip_detected_all :
  forallb (fun b => implb (0 <=? sym_decode b)
                      (forallb (fun i => sym_decode (flip i b) =? -1) (seq 0 10)))
          (bit_groups 10) = true.
Proof. vm_compute. reflexivity. Qed.

(** X1: inverting any single bit of a group that decodes gives a group that
    does not decode. *)
Theorem single_bit_error_detected (b : list Z) (i : nat) :
  length b = 10%nat -> Forall is_bit b -> 0 <= sym_decode b -> (i < 10)%nat ->
  sym_decode (flip i b) = -1.
Proof.
  intros Hlen Hb Hv Hi.
  pose proof (by_enumeration _ b flip_detected_all Hlen Hb) as H. cbn beta in H.
  replace (0 <=? sym_decode b) with true in H by (symmetry; apply Z.leb_le, Hv).
  cbn [implb] in H. rewrite forallb_forall in H.
  apply Z.eqb_eq, H, in_seq. lia.
Qed.

Lemma single_bit_error_detected_witness :
  sym_decode dx_cells = 125 /\ sym_decode (flip 3 dx_cells) = -1.
Proof.
  split; [reflexivity|].
  apply (single_bit_error_detected dx_cells 3);
    [reflexivity|bits_ok|vm_compute; discriminate|lia].
Defined.

Lemma decode_determines_all :
  forallb (fun b => implb (0 <=? sym_decode b)
                      (forallb (fun i => nth i b 0 =? nth i (codeword (sym_decode b)) 0)
                               (seq 0 10)))
          (bit_groups 10) = true.
Proof. vm_compute. reflexivity. Qed.

Lemma nth_ext_10 (b b' : list Z) :
  length b = 10%nat -> length b' = 10%nat ->
  (forall i, (i < 10)%nat -> nth i b 0 = nth i b' 0) -> b = b'.
Proof.
  intros H1 H2 Hn. apply (nth_ext b b' 0 0); [congruence|].
  intros i Hi. apply Hn. lia.
Qed.

Lemma decode_determines (b : list Z) :
  length b = 10%nat -> Forall is_bit b -> 0 <= sym_decode b ->
  forall i, (i < 10)%nat -> nth i b 0 = nth i (codeword (sym_decode b)) 0.
Proof.
  intros Hlen Hb Hv i Hi.
  pose proof (by_enumeration _ b decode_determines_all Hlen Hb) as H. cbn beta in H.
  replace (0 <=? sym_decode b) with true in H by (symmetry; apply Z.leb_le, Hv).
  cbn [implb] in H. rewrite forallb_forall in H.
  apply Z.eqb_eq, H, in_seq. lia.
Qed.

(** X2: two groups of ten bits that decode to the same value are the same
    group; a value is carried by one bit pattern only. *)
Theorem sym_decode_injective (b b' : list Z) :
  length b = 10%nat -> Forall is_bit b ->
  length b' = 10%nat -> Forall is_bit b' ->
  0 <= sym_decode b -> sym_decode b = sym_decode b' -> b = b'.
Proof.
  intros Hl Hb Hl' Hb' Hv Heq. apply nth_ext_10; [assumption..|].
  intros i Hi. rewrite (decode_determines b Hl Hb Hv i Hi).
  rewrite (decode_determines b' Hl' Hb' ltac:(lia) i Hi), Heq. reflexivity.
Qed.

Lemma sym_decode_injective_witness :
  sym_decode dx_cells = sym_decode (codeword 125) /\ dx_cells = codeword 125.
Proof.
  split; [reflexivity|].
  apply (sym_decode_injective dx_cells (codeword 125));
    [reflexivity|bits_ok|reflexivity|bits_ok|vm_compute; discriminate|reflexivity].
Defined.

(** ** The ring up to its capacity *)

Lemma rpopn_peek (n : nat) (r : ring_t) : (rpopn n r).1 = rpeekn n r.
Proof.
  revert r. induction n as [|n IH]; intros r; [reflexivity|].
  rewrite rpopn_S. cbn [fst]. rewrite IH. unfold rpeekn.
  cbn [seq map]. rewrite <- seq_shift, map_map. f_equal.
  - unfold rpop, rpeek; cbn [fst]. f_equal. f_equal. cbn. lia.
  - apply map_ext. intros i. rewrite rpeek_rpop. f_equal. lia.
Qed.

Lemma rpopn_ring (n : nat) (r : ring_t) : ring (rpopn n r).2 = ring r.
Proof.
  revert r. induction n as [|n IH]; intros r; [reflexivity|].
  rewrite rpopn_S. cbn [snd]. rewrite IH. reflexivity.
Qed.

(** X3: bits pushed into a ring with room for them come out in the order
    they went in, after the bits that were already there; peeking shows the
    same bits as popping, and neither changes a cell. *)
Theorem ring_fifo (bits : list bool) (r : ring_t) :
  ring_ok r -> rcnt r + Z.of_nat (length bits) <= 256 ->
  let r' := pushes bits r in
  let n := Z.to_nat (rcnt r') in
  rcnt r' = rcnt r + Z.of_nat (length bits)
  /\ rpeekn n r' = contents r ++ map Z.b2z bits
  /\ (rpopn n r').1 = contents r ++ map Z.b2z bits
  /\ rcnt (rpopn n r').2 = 0
  /\ ring (rpopn n r').2 = ring r'.
Proof.
  intros Hok Hroom r' n.
  destruct (pushes_spec bits r Hok Hroom) as (Hok' & Hc & Hcont).
  fold r' in Hok', Hc, Hcont.
  assert (Hn : Z.of_nat n = rcnt r') by (subst n; destruct Hok as (_ & _ & _ & ?); lia).
  split; [exact Hc|]. split; [exact Hcont|].
  split; [rewrite rpopn_peek; exact Hcont|].
  destruct (rpopn_spec n r' Hok') as (_ & _ & H3 & _); [lia|].
  split; [lia|apply rpopn_ring].
Qed.

Lemma ring_fifo_witness :
  ring_ok ring0 /\ rcnt ring0 + Z.of_nat (length dx_bits) <= 256
  /\ (rpopn 10 (pushes dx_bits ring0)).1 = dx_cells.
Proof.
  assert (H1 : ring_ok ring0) by by_eval.
  assert (H2 : rcnt ring0 + Z.of_nat (length dx_bits) <= 256) by by_eval.
  pose proof (ring_fifo dx_bits ring0 H1 H2) as (_ & _ & H & _).
  split; [exact H1|]. split; [exact H2|exact H].
Defined.

Lemma slot_wrap (k : Z) : 0 <= k -> slot (k + 256) = slot k.
Proof.
  intros Hk. rewrite !slot_mod by lia. f_equal.
  rewrite <- (Z_mod_plus_full k 1 256). f_equal; lia.
Qed.

(** X4: nothing guards the capacity: a push into a ring that already holds
    256 bits lands on the cell of the oldest unread bit, which is lost; the
    other unread bits are not touched. *)
Theorem ring_full_push (b : Z) (r : ring_t) :
  ring_ok r -> rcnt r = 256 ->
  rpeek 0 (rpush b r) = b mod 256
  /\ rcnt (rpush b r) = 257
  /\ forall i, 0 < i < 256 -> rpeek i (rpush b r) = rpeek i r.
Proof.
  intros (Hl & Hrd & Hwr & Hc) Hfull.
  assert (Hslot : slot (rwr r) = slot (rrd r)).
  { rewrite Hwr, Hfull. apply slot_wrap, Hrd. }
  split; [|split; [cbn [rcnt rpush]; lia|]].
  - unfold rpeek, rpush; cbn [ring rrd]. rewrite Z.add_0_r, Hslot.
    rewrite nth_lookup, list_lookup_insert_eq; [reflexivity|].
    rewrite Hl. apply slot_lt, Hrd.
  - intros i Hi. unfold rpeek, rpush; cbn [ring rrd].
    assert (Hne : slot (rwr r) <> slot (rrd r + i)) by (apply slot_apart; lia).
    rewrite !nth_lookup, list_lookup_insert_ne by exact Hne. reflexivity.
Qed.

Lemma ring_full_push_witness :
  let r := pushes (replicate 256 true) ring0 in
  ring_ok r /\ rcnt r = 256
  /\ rpeek 0 r = 1 /\ rpeek 0 (rpush 0 r) = 0 mod 256.
Proof.
  intros r.
  assert (H1 : ring_ok r) by by_eval.
  assert (H2 : rcnt r = 256) by reflexivity.
  pose proof (ring_full_push 0 r H1 H2) as (H & _).
  split; [exact H1|]. split; [exact H2|]. split; [reflexivity|exact H].
Defined.

(** ** What the ring holds in the reachable states *)

Lemma hunt_loop_ring (fuel : nat) (d : decoder) :
  ring (rg (hunt_loop fuel d)) = ring (rg d).
Proof.
  revert d. induction fuel as [|k IH]; intros d; [reflexivity|].
  cbn [hunt_loop]. destruct (10 <=? rcnt (rg d)); [|reflexivity].
  destruct (sym_decode (rpeekn 10 (rg d)) =? SYM_DX).
  - fields. apply rpopn_ring.
  - rewrite IH. reflexivity.
Qed.

Lemma collect_rg (v : Z) (d : decoder) : rg (collect v d).1 = rg d.
Proof.
  unfold collect, accept, first_data.
  assert (Hrs : forall d1, rg (emit (read_skip v d1)).1 = rg d1).
  { intros d1. destruct (emit_keeps (read_skip v d1)) as (-> & _).
    unfold read_skip. destruct (Z.rem (parity d1) 2 =? 0); [|reflexivity].
    destruct ((v <=? 99) && (dcnt d1 <? 16)); reflexivity. }
  destruct (started d); [apply Hrs|].
  destruct (99 <? v); [reflexivity|rewrite Hrs; reflexivity].
Qed.

(** One bit changes one cell of the ring: the bit is stored at the write
    cursor. *)
Lemma on_bit_ring (b : bool) (d : decoder) :
  ring (rg (on_bit b d).1) = <[slot (rwr (rg d)) := Z.b2z b]> (ring (rg d)).
Proof.
  assert (Hb : Z.b2z b mod 256 = Z.b2z b) by (destruct b; reflexivity).
  unfold on_bit. fields. destruct (state d).
  - cbn [fst]. unfold hunt. rewrite hunt_loop_ring. fields.
    cbn [ring rpush]. rewrite Hb. reflexivity.
  - destruct (sym_bit d + 1 <? 10).
    + cbn [fst]. fields. cbn [ring rpush]. rewrite Hb. reflexivity.
    + pose proof (rpopn_ring 10 (rpush (Z.b2z b) (rg d))) as Hr.
      destruct (rpopn 10 (rpush (Z.b2z b) (rg d))) as [raw r2]. cbn [snd] in Hr.
      destruct (sym_decode raw <? 0).
      * cbn [fst]. fields. rewrite Hr. cbn [ring rpush]. rewrite Hb. reflexivity.
      * rewrite collect_rg. fields. rewrite Hr. cbn [ring rpush].
        rewrite Hb. reflexivity.
Qed.

Lemma b2z_bit (b : bool) : is_bit (Z.b2z b).
Proof. destruct b; [right|left]; reflexivity. Qed.

Lemma run_bits_cells (bits : list bool) (d : decoder) :
  Forall is_bit (ring (rg d)) -> Forall is_bit (ring (rg (run_bits bits d).1)).
Proof.
  revert d. induction bits as [|b bits IH]; intros d Hd; [exact Hd|].
  cbn [run_bits]. pose proof (on_bit_ring b d) as Hr.
  destruct (on_bit b d) as [d1 e1]. cbn [fst] in Hr.
  specialize (IH d1). destruct (run_bits bits d1) as [d2 e2]. cbn [fst] in *.
  apply IH. rewrite Hr. apply Forall_insert; [exact Hd|apply b2z_bit].
Qed.

Lemma init_cells (junk : list Z) : Forall is_bit (ring (rg (init junk))).
Proof.
  change (ring (rg (init junk))) with (replicate 256 0).
  apply Forall_replicate. left. reflexivity.
Qed.

Lemma rpeekn_bits (n : nat) (r : ring_t) :
  Forall is_bit (ring r) -> Forall is_bit (rpeekn n r).
Proof.
  intros Hr. unfold rpeekn. apply Forall_map, Forall_forall. intros i _.
  unfold rpeek. rewrite List.Forall_forall in Hr.
  destruct (nth_in_or_default (slot (rrd r + Z.of_nat i)) (ring r) 0) as [Hin | ->].
  - apply Hr, Hin.
  - left. reflexivity.
Qed.

Lemma sym_decode_range (raw : list Z) :
  length raw = 10%nat -> Forall is_bit raw -> -1 <= sym_decode raw <= 127.
Proof.
  intros Hl Hb. destruct (sym_decode_cases raw Hl Hb) as (Hv & _ & Hok & Hbad).
  destruct (Z.eq_dec (check_field raw) (zero_count raw)) as [He | Hne].
  - rewrite (Hok He). lia.
  - rewrite (Hbad Hne). lia.
Qed.

(** X5: whatever the sample stream, every cell of the ring holds 0 or 1, so
    every group the decoder peeks at or pops is a group of ten bits, and every
    decode gives the failure code or a value of 0..127. *)
Theorem ring_holds_bits (junk : list Z) (bits : list bool) (b : bool) :
  let d := (run_bits bits (init junk)).1 in
  let r := rpush (Z.b2z b) (rg d) in
  Forall is_bit (ring (rg d))
  /\ Forall is_bit (contents (rg d))
  /\ (rpopn 10 r).1 = rpeekn 10 r
  /\ Forall is_bit (rpeekn 10 r)
  /\ -1 <= sym_decode (rpeekn 10 r) <= 127.
Proof.
  intros d r.
  assert (Hd : Forall is_bit (ring (rg d)))
    by (apply run_bits_cells, init_cells).
  assert (Hr : Forall is_bit (ring r)).
  { unfold r, rpush. cbn [ring]. apply Forall_insert; [exact Hd|].
    destruct b; [right|left]; reflexivity. }
  split; [exact Hd|]. split; [apply rpeekn_bits, Hd|].
  split; [apply rpopn_peek|]. split; [apply rpeekn_bits, Hr|].
  apply sym_decode_range; [|apply rpeekn_bits, Hr].
  unfold rpeekn. rewrite length_map, length_seq. reflexivity.
Qed.

(** ** Acquisition *)

(** The search on a queue of at most ten bits. *)
Lemma hunt_spec_short (q : list Z) :
  (length q <= 10)%nat ->
  hunt_spec q =
  if (length q =? 10)%nat
  then if sym_decode q =? SYM_DX then ([], true) else (tail q, false)
  else (q, false).
Proof.
  intros Hlen. destruct q as [|x q]; [reflexivity|].
  cbn [hunt_spec]. destruct (length (x :: q) =? 10)%nat eqn:H10.
  - apply Nat.eqb_eq in H10.
    replace (10 <=? length (x :: q))%nat with true
      by (symmetry; apply Nat.leb_le; lia).
    rewrite take_ge, drop_ge by lia.
    destruct (sym_decode (x :: q) =? SYM_DX); [reflexivity|].
    cbn [tail]. cbn [length] in H10.
    destruct q as [|y q]; [reflexivity|]. cbn [hunt_spec].
    replace (10 <=? length (y :: q))%nat with false
      by (symmetry; apply Nat.leb_gt; lia).
    reflexivity.
  - apply Nat.eqb_neq in H10.
    replace (10 <=? length (x :: q))%nat with false
      by (symmetry; apply Nat.leb_gt; lia).
    reflexivity.
Qed.

Lemma decode_dx_only (q : list Z) :
  length q = 10%nat -> Forall is_bit q -> sym_decode q = SYM_DX -> q = dx_cells.
Proof.
  intros Hl Hb Hd. apply nth_ext_10; [assumption|reflexivity|].
  intros i Hi. rewrite (decode_determines q Hl Hb) by (rewrite ?Hd; (lia || discriminate)).
  rewrite Hd. reflexivity.
Qed.

(** In a reachable HUNT state one more bit locks the decoder exactly when
    the ring then holds the ten cells of the phasing symbol. *)
Lemma lock_iff (b : bool) (d : decoder) :
  inv d -> Forall is_bit (ring (rg d)) -> state d = HUNT ->
  state (on_bit b d).1 = LOCKED <-> contents (rg d) ++ [Z.b2z b] = dx_cells.
Proof.
  intros (Hring & Hm & _) Hcells Hst. rewrite Hst in Hm. destruct Hm as (H9 & _).
  destruct (hunt_step b d Hring ltac:(lia) Hst) as (_ & _ & _ & Hres).
  cbn zeta in Hres. set (q := contents (rg d) ++ [Z.b2z b]) in *.
  assert (Hlen : (length q <= 10)%nat).
  { unfold q. rewrite length_app, length_contents. cbn [length].
    destruct Hring as (_ & _ & _ & ?). lia. }
  assert (Hbits : Forall is_bit q).
  { unfold q. apply Forall_app. split; [apply rpeekn_bits, Hcells|].
    constructor; [apply b2z_bit|constructor]. }
  rewrite (hunt_spec_short q Hlen) in Hres.
  destruct (length q =? 10)%nat eqn:H10.
  - apply Nat.eqb_eq in H10. destruct (sym_decode q =? SYM_DX) eqn:Hdx.
    + cbn [snd] in Hres. apply Z.eqb_eq in Hdx.
      split; [intros _; apply decode_dx_only; assumption|intros _; apply Hres].
    + cbn [snd] in Hres. apply Z.eqb_neq in Hdx. destruct Hres as (Hs & _).
      split; [intros HL; congruence|].
      intros Hq. exfalso. apply Hdx. rewrite Hq. reflexivity.
  - apply Nat.eqb_neq in H10. cbn [snd] in Hres. destruct Hres as (Hs & _).
    split; [intros HL; congruence|].
    intros Hq. exfalso. apply H10. rewrite Hq. reflexivity.
Qed.

(** X6: in HUNT the decoder locks on a bit exactly when that bit completes
    the pattern 1011111001 in the ring; no other ten bits lock it. *)
Theorem lock_iff_phasing_pattern (junk : list Z) (bits : list bool) (b : bool) :
  length junk = 16%nat ->
  let d := (run_bits bits (init junk)).1 in
  state d = HUNT ->
  state (on_bit b d).1 = LOCKED <-> contents (rg d) ++ [Z.b2z b] = dx_cells.
Proof.
  intros Hj d Hst. apply lock_iff; [|apply run_bits_cells, init_cells|exact Hst].
  apply run_bits_inv, init_inv, Hj.
Qed.

Lemma lock_iff_phasing_pattern_witness :
  length zeros16 = 16%nat
  /\ state (run_bits dx_head (init zeros16)).1 = HUNT
  /\ state (on_bit true (run_bits dx_head (init zeros16)).1).1 = LOCKED
  /\ state (on_bit false (run_bits dx_head (init zeros16)).1).1 <> LOCKED.
Proof.
  pose proof (lock_iff_phasing_pattern zeros16 dx_head true eq_refl eq_refl) as H1.
  pose proof (lock_iff_phasing_pattern zeros16 dx_head false eq_refl eq_refl) as H0.
  split; [reflexivity|]. split; [reflexivity|]. split.
  - apply H1. reflexivity.
  - intros HL. apply H0 in HL. vm_compute in HL. discriminate HL.
Defined.

(** A phasing symbol fed to a hunting decoder whose ring ends with the bits
    [a] already seen of it. *)
Lemma acquire_from (c a : list bool) (d : decoder) :
  a ++ c = dx_bits ->
  inv d -> state d = HUNT ->
  (exists pre, contents (rg d) = pre ++ map Z.b2z a) ->
  let res := run_bits c d in
  res.2 = [] /\ state res.1 = LOCKED /\ sym_bit res.1 <= 9
  /\ dcnt res.1 = 0 /\ started res.1 = false /\ parity res.1 = 0.
Proof.
  revert a d. induction c as [|b c IH]; intros a d Hac Hinv Hst (pre & Hpre); cbn zeta.
  - exfalso. rewrite app_nil_r in Hac. subst a.
    destruct Hinv as (Hring & Hm & _). rewrite Hst in Hm. destruct Hm as (H9 & _).
    pose proof (length_contents (rg d)) as Hl. rewrite Hpre, length_app in Hl.
    change (length (map Z.b2z dx_bits)) with 10%nat in Hl. lia.
  - assert (Hlc : (length a + S (length c) = 10)%nat).
    { change 10%nat with (length dx_bits). rewrite <- Hac, length_app. reflexivity. }
    pose proof Hinv as (Hring & Hm & _). rewrite Hst in Hm. destruct Hm as (H9 & _).
    pose proof (on_bit_inv b d Hinv) as Hinv1.
    destruct (hunt_step b d Hring ltac:(lia) Hst) as (He & Hq & _ & Hres).
    cbn zeta in Hq, Hres. set (q := contents (rg d) ++ [Z.b2z b]) in *.
    assert (Hlen : (length q <= 10)%nat).
    { unfold q. rewrite length_app, length_contents. cbn [length].
      destruct Hring as (_ & _ & _ & ?). lia. }
    rewrite (hunt_spec_short q Hlen) in Hq, Hres.
    cbn [run_bits]. destruct (on_bit b d) as [d1 e1]. cbn [fst snd] in *. subst e1.
    assert (Hlocked : state d1 = LOCKED /\ sym_bit d1 = 0 /\ dcnt d1 = 0
                      /\ started d1 = false /\ parity d1 = 0 ->
            let res := run_bits c d1 in
            res.2 = [] /\ state res.1 = LOCKED /\ sym_bit res.1 <= 9
            /\ dcnt res.1 = 0 /\ started res.1 = false /\ parity res.1 = 0).
    { intros (Hs & Hb & Hd & Hsta & Hp). cbn zeta.
      rewrite locked_prefix by (assumption || lia). fields.
      repeat split; try assumption; lia. }
    assert (Hgoal : let res := run_bits c d1 in
            res.2 = [] /\ state res.1 = LOCKED /\ sym_bit res.1 <= 9
            /\ dcnt res.1 = 0 /\ started res.1 = false /\ parity res.1 = 0).
    { destruct (length q =? 10)%nat eqn:H10.
      - apply Nat.eqb_eq in H10. destruct (sym_decode q =? SYM_DX) eqn:Hdx.
        + apply Hlocked. cbn [snd] in Hres. exact Hres.
        + cbn [fst snd] in Hq, Hres. destruct Hres as (Hs1 & _).
          destruct pre as [|x pre'].
          * exfalso. apply Z.eqb_neq in Hdx. apply Hdx.
            unfold q in H10 |- *. rewrite Hpre in H10 |- *. cbn [app] in H10 |- *.
            rewrite length_app, length_map in H10. cbn [length] in H10.
            assert (Hc0 : c = []) by (destruct c; [reflexivity|cbn [length] in Hlc; lia]).
            subst c. change [Z.b2z b] with (map Z.b2z [b]).
            rewrite <- (map_app Z.b2z a [b]), Hac. reflexivity.
          * apply (IH (a ++ [b])); [rewrite <- app_assoc; exact Hac|exact Hinv1|exact Hs1|].
            exists pre'. rewrite Hq. unfold q. rewrite Hpre, map_app.
            cbn [app tail map]. rewrite <- app_assoc. reflexivity.
      - cbn [fst snd] in Hq, Hres. destruct Hres as (Hs1 & _).
        apply (IH (a ++ [b])); [rewrite <- app_assoc; exact Hac|exact Hinv1|exact Hs1|].
        exists pre. rewrite Hq. unfold q. rewrite Hpre, map_app.
        cbn [map]. rewrite <- app_assoc. reflexivity. }
    cbn zeta in Hgoal. destruct (run_bits c d1) as [d2 e2]. cbn [fst snd] in *.
    destruct Hgoal as (-> & Hrest). split; [reflexivity|exact Hrest].
Qed.

(** X7: the ten bits of the phasing symbol always lock a hunting decoder,
    whatever bits came before: at the end of the symbol it is LOCKED, with
    the digit count, the started flag and the alternation counter reset, and
    nothing has been sent. *)
Theorem phasing_symbol_locks (d : decoder) :
  inv d -> state d = HUNT ->
  let res := run_bits dx_bits d in
  res.2 = [] /\ state res.1 = LOCKED /\ sym_bit res.1 <= 9
  /\ dcnt res.1 = 0 /\ started res.1 = false /\ parity res.1 = 0.
Proof.
  intros Hinv Hst. apply (acquire_from dx_bits []); [reflexivity|assumption..|].
  exists (contents (rg d)). cbn [map]. rewrite app_nil_r. reflexivity.
Qed.

Lemma phasing_symbol_locks_witness :
  inv (init zeros16) /\ state (init zeros16) = HUNT
  /\ state (run_bits dx_bits (init zeros16)).1 = LOCKED.
Proof.
  assert (H1 : inv (init zeros16)) by (apply init_inv; reflexivity).
  pose proof (phasing_symbol_locks (init zeros16) H1 eq_refl) as (_ & H & _).
  split; [exact H1|]. split; [reflexivity|exact H].
Defined.

(** ** Symbols delivered while LOCKED *)

Ltac by_cases :=
  repeat match goal with
         | |- context [if ?c then _ else _] => destruct c
         end;
  reflexivity.

(** The collector neither reads nor writes the ring. *)
Lemma collect_set_rg (v : Z) (r : ring_t) (d : decoder) :
  collect v (set_rg r d) = (set_rg r (collect v d).1, (collect v d).2).
Proof.
  destruct d as [r0 m k dat n st p].
  unfold collect, accept, first_data, read_skip, emit. fields.
  destruct st; fields.
  - destruct (Z.rem p 2 =? 0); fields; [|by_cases].
    destruct ((v <=? 99) && (n <? 16)); fields; by_cases.
  - destruct (99 <? v); [reflexivity|]. fields.
    change (Z.rem 0 2 =? 0) with true. cbn iota.
    destruct ((v <=? 99) && (n <? 16)); fields; by_cases.
Qed.

Lemma collect_all_set_rg (vs : list Z) (r : ring_t) (d : decoder) :
  collect_all vs (set_rg r d)
  = (set_rg r (collect_all vs d).1, (collect_all vs d).2).
Proof.
  revert d. induction vs as [|v vs IH]; intros d; [reflexivity|].
  cbn [collect_all]. rewrite collect_set_rg.
  destruct (collect v d) as [d1 e1]. cbn [fst snd].
  change (state (set_rg r d1)) with (state d1).
  destruct (state d1); [reflexivity|].
  rewrite IH. destruct (collect_all vs d1) as [d2 e2]. reflexivity.
Qed.

Lemma collect_sym_bit (v : Z) (d : decoder) : sym_bit (collect v d).1 = sym_bit d.
Proof.
  destruct d as [r0 m k dat n st p].
  unfold collect, accept, first_data, read_skip, emit. fields.
  destruct st; fields.
  - destruct (Z.rem p 2 =? 0); fields; [|by_cases].
    destruct ((v <=? 99) && (n <? 16)); fields; by_cases.
  - destruct (99 <? v); [reflexivity|]. fields.
    change (Z.rem 0 2 =? 0) with true. cbn iota.
    destruct ((v <=? 99) && (n <? 16)); fields; by_cases.
Qed.

Lemma inv_set_rg (r : ring_t) (d : decoder) :
  inv d -> state d = LOCKED -> sym_bit d = 0 -> ring_ok r -> rcnt r = 0 ->
  inv (set_rg r d).
Proof.
  intros (_ & _ & Hok & Hr) Hst Hsb Hring Hc. unfold inv, coll_ok in *. fields.
  rewrite Hst. split; [exact Hring|]. split; [lia|]. split; [exact Hok|exact Hr].
Qed.

Lemma set_rg_same (d : decoder) : set_rg (rg d) d = d.
Proof. destruct d; reflexivity. Qed.

(** Ten bits of a valid symbol, taken from a group boundary, come to one
    call of the collector. *)
Lemma locked_group_step (g : list bool) (d : decoder) :
  inv d -> state d = LOCKED -> sym_bit d = 0 -> valid_group g ->
  exists r, ring_ok r /\ rcnt r = 0 /\
    run_bits g d
    = (set_rg r (collect (decode_group g) d).1, (collect (decode_group g) d).2).
Proof.
  intros Hinv Hst Hsb (Hlen & Hv).
  destruct (locked_full g d Hinv Hst Hsb Hlen) as (r & Hr & Hr0 & Hrun).
  cbn zeta in Hrun. fold (decode_group g) in Hrun.
  replace (decode_group g <? 0) with false in Hrun
    by (symmetry; apply Z.ltb_ge, Hv).
  exists r. split; [exact Hr|]. split; [exact Hr0|].
  rewrite Hrun. apply collect_set_rg.
Qed.

Lemma collect_reserved (v : Z) (d : decoder) :
  started d = false -> 99 < v -> collect v d = (d, []).
Proof.
  intros Hs Hv. unfold collect, accept, first_data. rewrite Hs.
  replace (99 <? v) with true by (symmetry; apply Z.ltb_lt, Hv). reflexivity.
Qed.

Lemma reserved_run (gs : list (list bool)) (d : decoder) :
  inv d -> state d = LOCKED -> sym_bit d = 0 -> started d = false ->
  Forall (fun g => length g = 10%nat /\ 99 < decode_group g) gs ->
  exists r, ring_ok r /\ rcnt r = 0 /\ run_bits (concat gs) d = (set_rg r d, []).
Proof.
  intros Hinv Hst Hsb Hsta Hgs. revert d Hinv Hst Hsb Hsta.
  induction Hgs as [|g gs (Hlen & Hv) Hgs IH]; intros d Hinv Hst Hsb Hsta.
  - exists (rg d). pose proof Hinv as (Hring & Hm & _). rewrite Hst in Hm.
    split; [exact Hring|]. split; [lia|]. cbn. rewrite set_rg_same. reflexivity.
  - destruct (locked_group_step g d Hinv Hst Hsb) as (r & Hr & Hr0 & Hrun);
      [split; [exact Hlen|lia]|].
    rewrite (collect_reserved _ d Hsta Hv) in Hrun. cbn [fst snd] in Hrun.
    destruct (IH (set_rg r d)) as (r' & Hr' & Hr0' & Hrun');
      [apply inv_set_rg; assumption|exact Hst|exact Hsb|exact Hsta|].
    exists r'. split; [exact Hr'|]. split; [exact Hr0'|].
    cbn [concat]. rewrite run_bits_app, Hrun. cbn [fst snd]. rewrite Hrun'.
    reflexivity.
Qed.

(** X8: after a lock, symbols above 99 that come before the first data
    symbol are passed over, however many there are: the decoder stays LOCKED
    and unstarted, keeps everything but the ring cursors, and sends nothing. *)
Theorem reserved_symbols_skipped (gs : list (list bool)) (d : decoder) :
  inv d -> state d = LOCKED -> sym_bit d = 0 -> started d = false ->
  Forall (fun g => length g = 10%nat /\ 99 < decode_group g) gs ->
  exists r, ring_ok r /\ rcnt r = 0 /\ run_bits (concat gs) d = (set_rg r d, []).
Proof. exact (reserved_run gs d). Qed.

Lemma reserved_symbols_skipped_witness :
  inv locked0 /\ state locked0 = LOCKED /\ sym_bit locked0 = 0
  /\ started locked0 = false
  /\ Forall (fun g => length g = 10%nat /\ 99 < decode_group g) [dx_bits; dx_bits]
  /\ exists r, ring_ok r /\ rcnt r = 0
       /\ run_bits (concat [dx_bits; dx_bits]) locked0 = (set_rg r locked0, []).
Proof.
  assert (H1 : inv locked0).
  { unfold inv, coll_ok, ring_ok.
    split; [by_eval|]. split; [by_eval|]. split; [by_eval|]. constructor. }
  assert (H2 : Forall (fun g => length g = 10%nat /\ 99 < decode_group g)
                      [dx_bits; dx_bits]).
  { repeat (constructor; [split; reflexivity|]). constructor. }
  split; [exact H1|]. repeat (split; [reflexivity|]). split; [exact H2|].
  apply (reserved_symbols_skipped [dx_bits; dx_bits] locked0 H1); (reflexivity || exact H2).
Defined.

Lemma collect_all_inv (vs : list Z) (d : decoder) :
  inv d -> state d = LOCKED -> sym_bit d = 0 -> Forall (fun v => 0 <= v) vs ->
  inv (collect_all vs d).1 /\ sym_bit (collect_all vs d).1 = 0.
Proof.
  intros Hinv Hst Hsb Hvs. revert d Hinv Hst Hsb.
  induction Hvs as [|v vs Hv Hvs IH]; intros d Hinv Hst Hsb; [split; assumption|].
  cbn [collect_all]. pose proof (collect_inv v d Hv Hst Hsb Hinv) as H1.
  pose proof (collect_sym_bit v d) as H2. rewrite Hsb in H2.
  destruct (collect v d) as [d1 e1]. cbn [fst] in *.
  destruct (state d1) eqn:Hs1; [split; assumption|].
  destruct (IH d1 H1 Hs1 H2) as (H3 & H4).
  destruct (collect_all vs d1) as [d2 e2]. split; assumption.
Qed.

(** A stream of valid symbols that keeps the decoder LOCKED until its last
    symbol is processed as the collector processes their values. *)
Lemma locked_stream_run (gs : list (list bool)) (g : list bool) (d : decoder) :
  inv d -> state d = LOCKED -> sym_bit d = 0 ->
  Forall valid_group gs -> valid_group g ->
  state (collect_all (map decode_group gs) d).1 = LOCKED ->
  exists r, ring_ok r /\ rcnt r = 0 /\
    run_bits (concat (gs ++ [g])) d
    = (set_rg r (collect_all (map decode_group (gs ++ [g])) d).1,
       (collect_all (map decode_group (gs ++ [g])) d).2).
Proof.
  intros Hinv Hst Hsb Hgs Hg. revert d Hinv Hst Hsb.
  induction Hgs as [|g0 gs Hg0 Hgs IH]; intros d Hinv Hst Hsb Hlocked.
  - cbn [app concat map collect_all]. rewrite app_nil_r.
    destruct (locked_group_step g d Hinv Hst Hsb Hg) as (r & Hr & Hr0 & Hrun).
    exists r. split; [exact Hr|]. split; [exact Hr0|]. rewrite Hrun.
    destruct (collect (decode_group g) d) as [d1 e1]. cbn [fst snd].
    destruct (state d1); cbn [fst snd]; rewrite ?app_nil_r; reflexivity.
  - cbn [app concat map collect_all] in *.
    destruct (locked_group_step g0 d Hinv Hst Hsb Hg0) as (r0 & Hr & Hr0 & Hrun).
    pose proof (collect_inv (decode_group g0) d ltac:(apply Hg0) Hst Hsb Hinv) as Hinv1.
    pose proof (collect_sym_bit (decode_group g0) d) as Hsb1. rewrite Hsb in Hsb1.
    destruct (collect (decode_group g0) d) as [d1 e1]. cbn [fst snd] in *.
    destruct (state d1) eqn:Hs1; [cbn [fst] in Hlocked; congruence|].
    destruct (IH (set_rg r0 d1)) as (r & Hr' & Hr0' & Hrun').
    + apply inv_set_rg; assumption.
    + exact Hs1.
    + exact Hsb1.
    + rewrite collect_all_set_rg. cbn [fst].
      destruct (collect_all (map decode_group gs) d1). exact Hlocked.
    + exists r. split; [exact Hr'|]. split; [exact Hr0'|].
      rewrite run_bits_app, Hrun. cbn [fst snd]. rewrite Hrun'.
      rewrite collect_all_set_rg. cbn [fst snd].
      destruct (collect_all (map decode_group (gs ++ [g])) d1) as [d2 e2].
      reflexivity.
Qed.

(** X9: while the decoder stays LOCKED, a stream of valid ten-bit symbols
    has the effect of handing their decoded values to the collector one after
    the other; only the ring cursors differ. *)
Theorem locked_stream (gs : list (list bool)) (g : list bool) (d : decoder) :
  inv d -> state d = LOCKED -> sym_bit d = 0 ->
  Forall valid_group gs -> valid_group g ->
  state (collect_all (map decode_group gs) d).1 = LOCKED ->
  exists r, ring_ok r /\ rcnt r = 0 /\
    run_bits (concat (gs ++ [g])) d
    = (set_rg r (collect_all (map decode_group (gs ++ [g])) d).1,
       (collect_all (map decode_group (gs ++ [g])) d).2).
Proof. exact (locked_stream_run gs g d). Qed.

Lemma locked_stream_witness :
  inv locked0 /\ state locked0 = LOCKED /\ sym_bit locked0 = 0
  /\ Forall valid_group [symbols [12]; symbols [120]] /\ valid_group (symbols [34])
  /\ exists r, ring_ok r /\ rcnt r = 0
       /\ run_bits (symbols [12] ++ symbols [120] ++ symbols [34]) locked0
          = (set_rg r (collect_all [12; 120; 34] locked0).1, []).
Proof.
  assert (H1 : inv locked0).
  { unfold inv, coll_ok, ring_ok.
    split; [by_eval|]. split; [by_eval|]. split; [by_eval|]. constructor. }
  assert (Hv : forall v, 0 <= decode_group (symbols [v]) ->
                         length (symbols [v]) = 10%nat ->
                         valid_group (symbols [v])) by (intros v ? ?; split; assumption).
  assert (H2 : Forall valid_group [symbols [12]; symbols [120]]).
  { repeat (constructor; [split; [reflexivity|vm_compute; discriminate]|]). constructor. }
  assert (H3 : valid_group (symbols [34])) by (split; [reflexivity|vm_compute; discriminate]).
  destruct (locked_stream [symbols [12]; symbols [120]] (symbols [34]) locked0
              H1 eq_refl eq_refl H2 H3 eq_refl) as (r & Hr & Hr0 & Hrun).
  split; [exact H1|]. repeat (split; [reflexivity|]).
  split; [exact H2|]. split; [exact H3|].
  exists r. split; [exact Hr|]. split; [exact Hr0|].
  cbn [app concat] in Hrun. rewrite app_nil_r in Hrun. exact Hrun.
Defined.

(** ** A whole burst *)

(** Ten bits into an empty ring: nothing is decoded before the tenth. *)
Lemma hunt_fill (bits : list bool) (d : decoder) :
  inv d -> state d = HUNT -> (Z.to_nat (rcnt (rg d)) + length bits <= 9)%nat ->
  let res := run_bits bits d in
  res.2 = [] /\ inv res.1 /\ state res.1 = HUNT
  /\ contents (rg res.1) = contents (rg d) ++ map Z.b2z bits.
Proof.
  revert d. induction bits as [|b bits IH]; intros d Hinv Hst Hlen; cbn zeta.
  - cbn [run_bits fst snd map]. rewrite app_nil_r.
    split; [reflexivity|]. split; [exact Hinv|]. split; [exact Hst|reflexivity].
  - cbn [length] in Hlen. pose proof Hinv as (Hring & _).
    pose proof (on_bit_inv b d Hinv) as Hinv1.
    destruct (hunt_step b d Hring) as (He & Hq & _ & Hres);
      [destruct Hring as (_ & _ & _ & ?); lia|exact Hst|].
    cbn zeta in Hq, Hres.
    assert (Hl : (length (contents (rg d) ++ [Z.b2z b]) <= 10)%nat)
      by (rewrite length_app, length_contents; cbn [length]; lia).
    rewrite (hunt_spec_short _ Hl) in Hq, Hres.
    replace (length (contents (rg d) ++ [Z.b2z b]) =? 10)%nat with false in Hq, Hres
      by (symmetry; apply Nat.eqb_neq; rewrite length_app, length_contents;
          cbn [length]; lia).
    cbn [fst snd] in Hq, Hres. destruct Hres as (Hs1 & _).
    cbn [run_bits]. destruct (on_bit b d) as [d1 e1]. cbn [fst snd] in *. subst e1.
    destruct (IH d1 Hinv1 Hs1) as (He2 & Hinv2 & Hs2 & Hc2).
    { pose proof (length_contents (rg d1)) as Hl1. rewrite Hq, length_app in Hl1.
      rewrite length_contents in Hl1. cbn [length] in Hl1. lia. }
    destruct (run_bits bits d1) as [d2 e2]. cbn [fst snd] in *. subst e2.
    split; [reflexivity|]. split; [exact Hinv2|]. split; [exact Hs2|].
    rewrite Hc2, Hq, <- app_assoc. reflexivity.
Qed.

(** The phasing symbol into an empty ring locks on its tenth bit. *)
Lemma lock_from_empty (d : decoder) :
  inv d -> state d = HUNT -> rcnt (rg d) = 0 ->
  let res := run_bits dx_bits d in
  res.2 = [] /\ inv res.1 /\ state res.1 = LOCKED /\ sym_bit res.1 = 0
  /\ dcnt res.1 = 0 /\ started res.1 = false.
Proof.
  intros Hinv Hst Hc. cbn zeta. unfold dx_bits.
  rewrite run_bits_app, run_bits_one.
  destruct (hunt_fill dx_head d Hinv Hst) as (He & Hinv9 & Hs9 & Hc9);
    [rewrite Hc; cbn; lia|].
  rewrite (contents_empty _ Hc) in Hc9. cbn [app] in Hc9.
  destruct (run_bits dx_head d) as [d9 e9]. cbn [fst snd] in *. subst e9.
  pose proof Hinv9 as (Hring9 & Hm9 & _). rewrite Hs9 in Hm9.
  pose proof (on_bit_inv true d9 Hinv9) as Hinv10.
  destruct (hunt_step true d9 Hring9 ltac:(lia) Hs9) as (He & _ & _ & Hres).
  cbn zeta in Hres. rewrite Hc9 in Hres.
  change (hunt_spec (map Z.b2z dx_head ++ [Z.b2z true])) with ([] : list Z, true) in Hres.
  cbn [snd] in Hres. destruct Hres as (Hs & Hb & Hd & Hsta & _).
  rewrite He. split; [reflexivity|]. split; [exact Hinv10|].
  repeat split; assumption.
Qed.

Lemma take5_stored (v1 v2 v3 v4 v5 : Z) (dat : list Z) :
  length dat = 16%nat ->
  take 5 (<[4%nat := v5]> (<[3%nat := v4]> (<[2%nat := v3]>
            (<[1%nat := v2]> (<[0%nat := v1]> dat)))))
  = [v1; v2; v3; v4; v5].
Proof. intros Hl. list_of_length Hl. reflexivity. Qed.

(** The four ways a value is taken by the collector. *)
Lemma step_first (r : ring_t) (k : Z) (dat : list Z) (n par v : Z) :
  0 <= v <= 99 -> n < 4 ->
  collect v (Decoder r LOCKED k dat n false par)
  = (Decoder r LOCKED k (<[Z.to_nat n := v]> dat) (n + 1) true 1, []).
Proof.
  intros Hv Hn. unfold collect, accept, first_data, read_skip, emit. fields.
  replace (99 <? v) with false by (symmetry; apply Z.ltb_ge; lia). fields.
  rewrite rem2_even. cbn [Z.even].
  replace (v <=? 99) with true by (symmetry; apply Z.leb_le; lia).
  replace (n <? 16) with true by (symmetry; apply Z.ltb_lt; lia).
  cbn [andb]. fields.
  replace (n + 1 =? 5) with false by (symmetry; apply Z.eqb_neq; lia).
  reflexivity.
Qed.

Lemma step_read (r : ring_t) (k : Z) (dat : list Z) (n p v : Z) :
  0 <= v <= 99 -> n < 4 -> Z.even p = true ->
  collect v (Decoder r LOCKED k dat n true p)
  = (Decoder r LOCKED k (<[Z.to_nat n := v]> dat) (n + 1) true (p + 1), []).
Proof.
  intros Hv Hn Hp. unfold collect, accept, first_data, read_skip, emit. fields.
  rewrite rem2_even, Hp.
  replace (v <=? 99) with true by (symmetry; apply Z.leb_le; lia).
  replace (n <? 16) with true by (symmetry; apply Z.ltb_lt; lia).
  cbn [andb]. fields.
  replace (n + 1 =? 5) with false by (symmetry; apply Z.eqb_neq; lia).
  reflexivity.
Qed.

Lemma step_skip (r : ring_t) (k : Z) (dat : list Z) (n p x : Z) :
  n <> 5 -> Z.even p = false ->
  collect x (Decoder r LOCKED k dat n true p)
  = (Decoder r LOCKED k dat n true (p + 1), []).
Proof.
  intros Hn Hp. unfold collect, accept, first_data, read_skip, emit. fields.
  rewrite rem2_even, Hp. fields.
  replace (n =? 5) with false by (symmetry; apply Z.eqb_neq; lia).
  reflexivity.
Qed.

Lemma step_last (r : ring_t) (k : Z) (dat : list Z) (p v : Z) :
  0 <= v <= 99 -> Z.even p = true ->
  collect v (Decoder r LOCKED k dat 4 true p)
  = (Decoder r HUNT k (<[4%nat := v]> dat) 0 false (p + 1),
     [Stdout ("ATIS: " ++ strip (render (<[4%nat := v]> dat)) ++ nl)%string;
      Datagram (strip (render (<[4%nat := v]> dat)) ++ nl)%string]).
Proof.
  intros Hv Hp. unfold collect, accept, first_data, read_skip, emit. fields.
  rewrite rem2_even, Hp.
  replace (v <=? 99) with true by (symmetry; apply Z.leb_le; lia).
  reflexivity.
Qed.

(** Five data values in the read positions, anything in the skip positions. *)
Lemma diversity_values (v1 x1 v2 x2 v3 x3 v4 x4 v5 : Z) (d : decoder) :
  length (data d) = 16%nat -> dcnt d = 0 -> started d = false ->
  0 <= v1 <= 99 -> 0 <= v2 <= 99 -> 0 <= v3 <= 99 -> 0 <= v4 <= 99 ->
  0 <= v5 <= 99 ->
  let p := strip (String.concat "" (map two_digits [v1; v2; v3; v4; v5])) in
  state d = LOCKED ->
  state (collect_all [v1; x1; v2; x2; v3; x3; v4; x4] d).1 = LOCKED
  /\ (collect_all [v1; x1; v2; x2; v3; x3; v4; x4; v5] d).2
     = [Stdout ("ATIS: " ++ p ++ nl)%string; Datagram (p ++ nl)%string]
  /\ state (collect_all [v1; x1; v2; x2; v3; x3; v4; x4; v5] d).1 = HUNT
  /\ dcnt (collect_all [v1; x1; v2; x2; v3; x3; v4; x4; v5] d).1 = 0
  /\ started (collect_all [v1; x1; v2; x2; v3; x3; v4; x4; v5] d).1 = false
  /\ sym_bit (collect_all [v1; x1; v2; x2; v3; x3; v4; x4; v5] d).1 = sym_bit d.
Proof.
  intros Hlen Hd Hs H1 H2 H3 H4 H5 p Hst.
  destruct d as [r m k dat n st par]. fields. subst n st m.
  assert (Hrender :
    render (<[4%nat := v5]> (<[3%nat := v4]> (<[2%nat := v3]>
              (<[1%nat := v2]> (<[0%nat := v1]> dat)))))
    = String.concat "" (map two_digits [v1; v2; v3; v4; v5])).
  { rewrite render_two_digits; rewrite take5_stored by exact Hlen; [reflexivity|].
    repeat (constructor; [assumption|]). constructor. }
  assert (H8 : collect_all [v1; x1; v2; x2; v3; x3; v4; x4]
                 (Decoder r LOCKED k dat 0 false par)
               = (Decoder r LOCKED k
                    (<[3%nat := v4]> (<[2%nat := v3]> (<[1%nat := v2]>
                       (<[0%nat := v1]> dat)))) 4 true 8, [])).
  { cbn [collect_all].
    rewrite step_first by lia. cbn [state app].
    rewrite step_skip by (lia || reflexivity). cbn [state app].
    rewrite step_read by (lia || reflexivity). cbn [state app].
    rewrite step_skip by (lia || reflexivity). cbn [state app].
    rewrite step_read by (lia || reflexivity). cbn [state app].
    rewrite step_skip by (lia || reflexivity). cbn [state app].
    rewrite step_read by (lia || reflexivity). cbn [state app].
    rewrite step_skip by (lia || reflexivity). cbn [state app].
    reflexivity. }
  assert (H9 : collect_all [v1; x1; v2; x2; v3; x3; v4; x4; v5]
                 (Decoder r LOCKED k dat 0 false par)
               = (Decoder r HUNT k
                    (<[4%nat := v5]> (<[3%nat := v4]> (<[2%nat := v3]>
                       (<[1%nat := v2]> (<[0%nat := v1]> dat))))) 0 false 9,
                  [Stdout ("ATIS: " ++ p ++ nl)%string; Datagram (p ++ nl)%string])).
  { cbn [collect_all].
    rewrite step_first by lia. cbn [state app].
    rewrite step_skip by (lia || reflexivity). cbn [state app].
    rewrite step_read by (lia || reflexivity). cbn [state app].
    rewrite step_skip by (lia || reflexivity). cbn [state app].
    rewrite step_read by (lia || reflexivity). cbn [state app].
    rewrite step_skip by (lia || reflexivity). cbn [state app].
    rewrite step_read by (lia || reflexivity). cbn [state app].
    rewrite step_skip by (lia || reflexivity). cbn [state app].
    change (0 + 1 + 1 + 1 + 1) with 4.
    rewrite step_last by (lia || reflexivity). cbn [state].
    change (Z.to_nat (0 + 1 + 1 + 1)) with 3%nat.
    change (Z.to_nat (0 + 1 + 1)) with 2%nat.
    change (Z.to_nat (0 + 1)) with 1%nat.
    change (Z.to_nat 0) with 0%nat.
    rewrite Hrender. reflexivity. }
  rewrite H8, H9. repeat split; reflexivity.
Qed.

Lemma burst_run (pre gs : list (list bool))
    (v1 x1 v2 x2 v3 x3 v4 x4 v5 : Z) (d : decoder) :
  inv d -> state d = HUNT -> rcnt (rg d) = 0 ->
  Forall (fun g => length g = 10%nat /\ 99 < decode_group g) pre ->
  Forall valid_group gs ->
  map decode_group gs = [v1; x1; v2; x2; v3; x3; v4; x4; v5] ->
  v1 <= 99 -> v2 <= 99 -> v3 <= 99 -> v4 <= 99 -> v5 <= 99 ->
  let res := run_bits (dx_bits ++ concat pre ++ concat gs) d in
  let p := strip (String.concat "" (map two_digits [v1; v2; v3; v4; v5])) in
  res.2 = [Stdout ("ATIS: " ++ p ++ nl)%string; Datagram (p ++ nl)%string]
  /\ inv res.1 /\ state res.1 = HUNT /\ rcnt (rg res.1) = 0.
Proof.
  intros Hinv Hst Hc Hpre Hgs Hmap L1 L2 L3 L4 L5 res p.
  assert (Hinvres : inv res.1) by (apply run_bits_inv, Hinv).
  assert (Hpos : Forall (fun v => 0 <= v) (map decode_group gs)).
  { apply Forall_map. eapply Forall_impl; [exact Hgs|]. intros g (_ & Hg). exact Hg. }
  rewrite Hmap in Hpos.
  assert (P1 : 0 <= v1) by (inversion Hpos; assumption).
  assert (P2 : 0 <= v2) by (do 2 (apply Forall_inv_tail in Hpos); inversion Hpos; assumption).
  assert (P3 : 0 <= v3) by (do 4 (apply Forall_inv_tail in Hpos); inversion Hpos; assumption).
  assert (P4 : 0 <= v4) by (do 6 (apply Forall_inv_tail in Hpos); inversion Hpos; assumption).
  assert (P5 : 0 <= v5) by (do 8 (apply Forall_inv_tail in Hpos); inversion Hpos; assumption).
  (* the phasing symbol *)
  destruct (lock_from_empty d Hinv Hst Hc) as (E1 & Hinv1 & Hs1 & Hb1 & Hd1 & Hsta1).
  (* the reserved symbols *)
  destruct (reserved_run pre (run_bits dx_bits d).1 Hinv1 Hs1 Hb1 Hsta1 Hpre)
    as (r & Hr & Hr0 & E2).
  set (d2 := set_rg r (run_bits dx_bits d).1) in *.
  assert (Hinv2 : inv d2) by (apply inv_set_rg; assumption).
  (* the nine symbols *)
  assert (Hsplit : exists gs8 g9, gs = gs8 ++ [g9] /\ length gs8 = 8%nat).
  { assert (Hl : length gs = 9%nat)
      by (rewrite <- (length_map decode_group), Hmap; reflexivity).
    list_of_length Hl.
    match goal with
    | |- context [[?a; ?b; ?c; ?e; ?f; ?g; ?h; ?i; ?j]] =>
        exists [a; b; c; e; f; g; h; i], j
    end. split; reflexivity. }
  destruct Hsplit as (gs8 & g9 & -> & Hl8).
  apply Forall_app in Hgs as (Hgs8 & Hg9). apply Forall_inv in Hg9.
  assert (Hmap8 : map decode_group gs8 = [v1; x1; v2; x2; v3; x3; v4; x4]).
  { rewrite map_app in Hmap. list_of_length Hl8. cbn in Hmap |- *.
    congruence. }
  destruct (diversity_values v1 x1 v2 x2 v3 x3 v4 x4 v5 d2)
    as (K8 & K9 & Ks & Kd & Ksta & _);
    [apply Hinv2|exact Hd1|exact Hsta1|lia..|exact Hs1|].
  destruct (locked_stream_run gs8 g9 d2 Hinv2 Hs1 Hb1 Hgs8 Hg9) as (r' & Hr' & Hr0' & E3);
    [rewrite Hmap8; exact K8|].
  rewrite Hmap in E3.
  assert (Hres : res = (set_rg r' (collect_all [v1; x1; v2; x2; v3; x3; v4; x4; v5] d2).1,
                        (collect_all [v1; x1; v2; x2; v3; x3; v4; x4; v5] d2).2)).
  { subst res. rewrite run_bits_app, run_bits_app, E1, E2. cbn [fst snd app].
    fold d2. rewrite E3. reflexivity. }
  split; [rewrite Hres; exact K9|]. split; [exact Hinvres|].
  rewrite Hres. cbn [fst]. split; [exact Ks|exact Hr0'].
Qed.

(** X10: a burst is decoded whole.  From a hunting decoder with an empty
    ring (as at the start, after a report and after a failed decode), the
    phasing symbol, any number of symbols above 99, and nine valid symbols
    whose first, third, fifth, seventh and ninth carry values of at most 99
    produce exactly one report, made of these five values in order, whatever
    the four symbols in between carry; the decoder is then hunting again with
    an empty ring. *)
Theorem burst_reported (pre gs : list (list bool))
    (v1 x1 v2 x2 v3 x3 v4 x4 v5 : Z) (d : decoder) :
  inv d -> state d = HUNT -> rcnt (rg d) = 0 ->
  Forall (fun g => length g = 10%nat /\ 99 < decode_group g) pre ->
  Forall valid_group gs ->
  map decode_group gs = [v1; x1; v2; x2; v3; x3; v4; x4; v5] ->
  v1 <= 99 -> v2 <= 99 -> v3 <= 99 -> v4 <= 99 -> v5 <= 99 ->
  let res := run_bits (dx_bits ++ concat pre ++ concat gs) d in
  let p := strip (String.concat "" (map two_digits [v1; v2; v3; v4; v5])) in
  res.2 = [Stdout ("ATIS: " ++ p ++ nl)%string; Datagram (p ++ nl)%string]
  /\ inv res.1 /\ state res.1 = HUNT /\ rcnt (rg res.1) = 0.
Proof. exact (burst_run pre gs v1 x1 v2 x2 v3 x3 v4 x4 v5 d). Qed.

Lemma burst_reported_witness :
  let gs := map (fun v => symbols [v]) [98; 101; 76; 7; 54; 125; 32; 0; 10] in
  inv (init zeros16) /\ state (init zeros16) = HUNT /\ rcnt (rg (init zeros16)) = 0
  /\ Forall (fun g => length g = 10%nat /\ 99 < decode_group g) [dx_bits]
  /\ Forall valid_group gs
  /\ (run_bits (dx_bits ++ concat [dx_bits] ++ concat gs) (init zeros16)).2
     = [Stdout ("ATIS: 9876543210" ++ nl)%string;
        Datagram ("9876543210" ++ nl)%string].
Proof.
  intros gs.
  assert (H1 : inv (init zeros16)) by (apply init_inv; reflexivity).
  assert (H2 : Forall (fun g => length g = 10%nat /\ 99 < decode_group g) [dx_bits]).
  { repeat (constructor; [split; reflexivity|]). constructor. }
  assert (H3 : Forall valid_group gs).
  { repeat (constructor; [split; [reflexivity|vm_compute; discriminate]|]).
    constructor. }
  pose proof (burst_reported [dx_bits] gs 98 101 76 7 54 125 32 0 10 (init zeros16)
                H1 eq_refl eq_refl H2 H3 eq_refl) as H.
  destruct H as (He & _); [lia..|].
  split; [exact H1|]. repeat (split; [reflexivity|]).
  split; [exact H2|]. split; [exact H3|exact He].
Defined.

(** ** What the program sends out *)

Lemma digit_ok (k : Z) : 0 <= k <= 9 -> is_digit (digit k).
Proof.
  intros Hk. unfold is_digit, digit.
  rewrite nat_ascii_embedding by lia. lia.
Qed.

Lemma tens_units (n : Z) :
  0 <= n <= 99 -> 0 <= n / 10 <= 9 /\ 0 <= n mod 10 <= 9.
Proof.
  intros Hn. pose proof (Z.mod_pos_bound n 10 ltac:(lia)).
  pose proof (Z.div_mod n 10 ltac:(lia)). lia.
Qed.

Lemma id_string_five (out : list Z) :
  length out = 5%nat -> Forall (fun x => 0 <= x <= 99) out ->
  id_string (strip (String.concat "" (map two_digits out))).
Proof.
  intros Hl Hr. list_of_length Hl.
  repeat match goal with
         | H : Forall _ (_ :: _) |- _ =>
             let Hx := fresh "Hx" in
             pose proof (Forall_inv H) as Hx; apply tens_units in Hx;
             apply Forall_inv_tail in H
         end.
  unfold two_digits. cbn [map String.concat String.append]. unfold strip.
  cbn [String.length Z.of_nat Pos.of_succ_nat Pos.succ Z.eqb Pos.eqb andb].
  destruct (Ascii.eqb _ "0"); (split; [cbn [String.length]; auto|]);
    cbn [list_ascii_of_string];
    repeat (constructor; [apply digit_ok; lia|]); constructor.
Qed.

Lemma report_stream_app (e1 e2 : list event) :
  report_stream e1 -> report_stream e2 -> report_stream (e1 ++ e2).
Proof.
  induction 1 as [|p rest Hp Hrest IH]; intros H2; [exact H2|].
  cbn [app]. constructor; [exact Hp|apply IH, H2].
Qed.

Lemma collect_reports (v : Z) (d : decoder) :
  inv d -> 0 <= v -> report_stream (collect v d).2.
Proof.
  intros Hinv Hv. destruct (accept v d) as [d2|] eqn:Hacc.
  - destruct (Z.eq_dec (dcnt d2) 5) as [H5 | Hn5].
    + destruct (emit_full v d d2 Hinv Hv Hacc H5) as (Hlen & Hr & Hc).
      cbn zeta in Hc. rewrite Hc. cbn [snd].
      constructor; [apply id_string_five; assumption|constructor].
    + unfold collect. rewrite Hacc, (emit_idle d2 Hn5). constructor.
  - unfold collect. rewrite Hacc. constructor.
Qed.

Lemma on_bit_reports (b : bool) (d : decoder) :
  inv d -> report_stream (on_bit b d).2.
Proof.
  intros Hinv. pose proof Hinv as (Hring & Hm & Hok & Hr).
  destruct (state d) eqn:Hst.
  - destruct Hm as (H9 & _).
    destruct (hunt_step b d Hring ltac:(lia) Hst) as (-> & _). constructor.
  - destruct Hm as (Hc & H9).
    destruct (Z.lt_ge_cases (sym_bit d + 1) 10) as [Hlt | Hge].
    + rewrite <- run_bits_one, locked_prefix by (assumption || (cbn [length]; lia)).
      constructor.
    + destruct (locked_tenth b d Hring Hst ltac:(lia) ltac:(lia)) as (Hr2 & Hr0 & Hrun).
      cbn zeta in Hrun. rewrite Hrun.
      destruct (sym_decode _ <? 0) eqn:Hv; [constructor|].
      apply Z.ltb_ge in Hv. apply collect_reports; [|exact Hv].
      unfold inv, coll_ok in *. fields. rewrite Hst.
      split; [exact Hr2|]. split; [lia|]. split; [exact Hok|exact Hr].
Qed.

Lemma run_bits_reports (bits : list bool) (d : decoder) :
  inv d -> report_stream (run_bits bits d).2.
Proof.
  revert d. induction bits as [|b bits IH]; intros d Hinv; [constructor|].
  cbn [run_bits]. pose proof (on_bit_reports b d Hinv) as H1.
  pose proof (on_bit_inv b d Hinv) as Hinv1.
  destruct (on_bit b d) as [d1 e1]. cbn [fst snd] in *.
  specialize (IH d1 Hinv1). destruct (run_bits bits d1) as [d2 e2].
  apply report_stream_app; assumption.
Qed.

(** X11: everything [main] sends out.  With fewer than three command-line
    words it sends the usage line to stderr, returns 1 and reads no sample.
    Otherwise it returns 0 and its output is a sequence of reports, each a
    line ["ATIS: <id>"] on stdout followed by a datagram ["<id>"] plus
    newline with the same [<id>], a string of nine or ten decimal digits;
    nothing else is ever written, whatever the samples. *)
Theorem main_reports {power : Type} (goertzel : list Z -> Z -> Z -> power)
    (fgt : power -> power -> bool)
    (argv : list string) (sb0 junk samples : list Z) :
  length sb0 = 20%nat -> length junk = 16%nat ->
  ((length argv < 3)%nat ->
     main goertzel fgt argv sb0 junk samples
     = (1, [Stderr ("usage: " ++ nth 0 argv "" ++ " <host> <port>" ++ nl)%string]))
  /\ ((3 <= length argv)%nat ->
      (main goertzel fgt argv sb0 junk samples).1 = 0
      /\ report_stream (main goertzel fgt argv sb0 junk samples).2).
Proof.
  intros Hsb Hj. unfold main. split; intros Hargc.
  - replace (Z.of_nat (length argv) <? 3) with true
      by (symmetry; apply Z.ltb_lt; lia). reflexivity.
  - replace (Z.of_nat (length argv) <? 3) with false
      by (symmetry; apply Z.ltb_ge; lia). cbn [fst snd].
    split; [reflexivity|].
    destruct (run_samples_windows power goertzel fgt (length samples) samples
                (Receiver sb0 0 (init junk))) as (Hw & _); [lia|reflexivity|exact Hsb|].
    cbn zeta in Hw. cbn [dec] in Hw.
    apply (f_equal snd) in Hw. cbn [snd] in Hw. rewrite Hw.
    apply run_bits_reports, init_inv, Hj.
Qed.

Lemma main_reports_witness :
  let g := fun (w : list Z) (n hz : Z) => foldr Z.add 0 w * hz in
  length (replicate 20 0) = 20%nat /\ length zeros16 = 16%nat
  /\ (main g Z.ltb ["atis"]%string (replicate 20 0) zeros16 [1; 2; 3]).1 = 1
  /\ report_stream
       (main g Z.ltb ["atis"; "host"; "5005"]%string (replicate 20 0) zeros16
             (replicate 60 5)).2.
Proof.
  intros g.
  pose proof (main_reports g Z.ltb ["atis"]%string (replicate 20 0) zeros16 [1; 2; 3]
                eq_refl eq_refl) as (Hu & _).
  pose proof (main_reports g Z.ltb ["atis"; "host"; "5005"]%string (replicate 20 0)
                zeros16 (replicate 60 5) eq_refl eq_refl) as (_ & Hr).
  split; [reflexivity|]. split; [reflexivity|]. split.
  - rewrite Hu by (cbn; lia). reflexivity.
  - apply Hr. cbn. lia.
Defined.

(** ** Uninitialised memory *)

Lemma same_but_junk_lock (r : ring_t) (d1 d2 : decoder) :
  same_but_junk d1 d2 -> same_but_junk (lock (set_rg r d1)) (lock (set_rg r d2)).
Proof.
  intros (Hrg & Hst & Hsb & Hdc & Hsta & Hp & Hl1 & Hl2 & Hd & Ht).
  unfold same_but_junk. fields. repeat split; (assumption || lia).
Qed.

Lemma hunt_loop_junk (fuel : nat) (d1 d2 : decoder) :
  same_but_junk d1 d2 ->
  same_but_junk (hunt_loop fuel d1) (hunt_loop fuel d2).
Proof.
  revert d1 d2. induction fuel as [|k IH]; intros d1 d2 Hs; [exact Hs|].
  cbn [hunt_loop]. pose proof Hs as (Hrg & Hrest).
  rewrite <- Hrg. destruct (10 <=? rcnt (rg d1)); [|exact Hs].
  destruct (sym_decode (rpeekn 10 (rg d1)) =? SYM_DX).
  - apply same_but_junk_lock, Hs.
  - apply IH. destruct Hrest as (Hst & Hsb & Hdc & Hsta & Hp & Hl1 & Hl2 & Hd & Ht).
    unfold same_but_junk. fields. repeat split; (assumption || lia).
Qed.

Lemma render_take (l l' : list Z) : take 5 l = take 5 l' -> render l = render l'.
Proof. intros H. unfold render. rewrite H. reflexivity. Qed.

(** The collector on two decoders that differ in unwritten cells only. *)
Lemma collect_junk (v : Z) (d1 d2 : decoder) :
  same_but_junk d1 d2 ->
  (collect v d1).2 = (collect v d2).2
  /\ same_but_junk (collect v d1).1 (collect v d2).1.
Proof.
  intros Hs. pose proof Hs as (Hrg & Hst & Hsb & Hdc & Hsta & Hp & Hl1 & Hl2 & Hd & Ht).
  destruct d1 as [r m k dat1 n st p], d2 as [r' m' k' dat2 n' st' p'].
  fields. subst r' m' k' n' st' p'.
  assert (Hstore : take (Z.to_nat (n + 1)) (<[Z.to_nat n := v]> dat1)
                   = take (Z.to_nat (n + 1)) (<[Z.to_nat n := v]> dat2)).
  { rewrite !take_store by lia. rewrite Ht. reflexivity. }
  assert (Hread : forall q,
    (emit (Decoder r m k (<[Z.to_nat n := v]> dat1) (n + 1) true q)).2
    = (emit (Decoder r m k (<[Z.to_nat n := v]> dat2) (n + 1) true q)).2
    /\ same_but_junk
         (emit (Decoder r m k (<[Z.to_nat n := v]> dat1) (n + 1) true q)).1
         (emit (Decoder r m k (<[Z.to_nat n := v]> dat2) (n + 1) true q)).1).
  { intros q. unfold emit. fields. destruct (n + 1 =? 5) eqn:H5.
    - apply Z.eqb_eq in H5. replace (Z.to_nat (n + 1)) with 5%nat in Hstore by lia.
      rewrite (render_take _ _ Hstore). split; [reflexivity|].
      unfold same_but_junk. fields. rewrite !length_insert.
      repeat split; (assumption || lia).
    - apply Z.eqb_neq in H5. split; [reflexivity|].
      unfold same_but_junk. fields. rewrite !length_insert.
      repeat split; (assumption || lia). }
  assert (Hidle : forall b q,
    (emit (Decoder r m k dat1 n b q)).2 = (emit (Decoder r m k dat2 n b q)).2
    /\ same_but_junk (emit (Decoder r m k dat1 n b q)).1
                     (emit (Decoder r m k dat2 n b q)).1).
  { intros b q. unfold emit. fields.
    replace (n =? 5) with false by (symmetry; apply Z.eqb_neq; lia).
    split; [reflexivity|]. unfold same_but_junk. fields.
    repeat split; (assumption || lia). }
  assert (Hg : (n <? 16) = true) by (apply Z.ltb_lt; lia).
  unfold collect, accept, first_data, read_skip. fields.
  destruct st; fields.
  - rewrite Hg, andb_true_r.
    destruct (Z.rem p 2 =? 0); fields; [|apply Hidle].
    destruct (v <=? 99); fields; [apply Hread|apply Hidle].
  - destruct (99 <? v).
    + split; [reflexivity|exact Hs].
    + fields. rewrite Hg, andb_true_r.
      change (Z.rem 0 2 =? 0) with true. cbn iota.
      destruct (v <=? 99); fields; [apply Hread|apply Hidle].
Qed.

Lemma on_bit_junk (b : bool) (d1 d2 : decoder) :
  same_but_junk d1 d2 ->
  (on_bit b d1).2 = (on_bit b d2).2
  /\ same_but_junk (on_bit b d1).1 (on_bit b d2).1.
Proof.
  intros Hs. pose proof Hs as (Hrg & Hst & Hsb & Hdc & Hsta & Hp & Hl1 & Hl2 & Hd & Ht).
  unfold on_bit. cbn zeta.
  change (state (set_rg (rpush (Z.b2z b) (rg d1)) d1)) with (state d1).
  change (state (set_rg (rpush (Z.b2z b) (rg d2)) d2)) with (state d2).
  rewrite <- Hst, <- Hrg. destruct (state d1) eqn:Hs1.
  - split; [reflexivity|]. cbn [fst]. unfold hunt. fields.
    apply hunt_loop_junk. unfold same_but_junk. fields.
    rewrite <- Hst, Hs1. repeat split; (assumption || lia).
  - fields. rewrite <- Hsb. destruct (sym_bit d1 + 1 <? 10).
    + split; [reflexivity|]. cbn [fst]. unfold same_but_junk. fields.
      rewrite <- Hst, Hs1. repeat split; (assumption || lia).
    + destruct (rpopn 10 (rpush (Z.b2z b) (rg d1))) as [raw r2].
      destruct (sym_decode raw <? 0).
      * split; [reflexivity|]. cbn [fst]. unfold same_but_junk. fields.
        repeat split; (assumption || lia).
      * apply collect_junk. unfold same_but_junk. fields.
        rewrite <- Hst, Hs1. repeat split; (assumption || lia).
Qed.

Lemma run_bits_junk (bits : list bool) (d1 d2 : decoder) :
  same_but_junk d1 d2 ->
  (run_bits bits d1).2 = (run_bits bits d2).2
  /\ same_but_junk (run_bits bits d1).1 (run_bits bits d2).1.
Proof.
  revert d1 d2. induction bits as [|b bits IH]; intros d1 d2 Hs.
  - split; [reflexivity|exact Hs].
  - cbn [run_bits]. destruct (on_bit_junk b d1 d2 Hs) as (He & Hs1).
    destruct (on_bit b d1) as [d1' e1], (on_bit b d2) as [d2' e2].
    cbn [fst snd] in He, Hs1. destruct (IH d1' d2' Hs1) as (He' & Hs2).
    destruct (run_bits bits d1') as [d1'' e1'], (run_bits bits d2') as [d2'' e2'].
    cbn [fst snd] in *. split; [congruence|exact Hs2].
Qed.

Lemma init_junk (junk junk' : list Z) :
  length junk = 16%nat -> length junk' = 16%nat ->
  same_but_junk (init junk) (init junk').
Proof.
  intros H1 H2. unfold same_but_junk, init. fields.
  repeat split; (assumption || lia).
Qed.

(** X12: the first contents of the two uninitialised arrays of [main], the
    sample buffer and the digit array, never reach the output: two runs on
    the same samples send out the same, and return the same status, whatever
    these arrays held. *)
Theorem uninitialised_memory_unseen {power : Type}
    (goertzel : list Z -> Z -> Z -> power) (fgt : power -> power -> bool)
    (argv : list string) (sb0 sb0' junk junk' samples : list Z) :
  length sb0 = 20%nat -> length sb0' = 20%nat ->
  length junk = 16%nat -> length junk' = 16%nat ->
  main goertzel fgt argv sb0 junk samples
  = main goertzel fgt argv sb0' junk' samples.
Proof.
  intros Hsb Hsb' Hj Hj'. unfold main.
  destruct (Z.of_nat (length argv) <? 3); [reflexivity|]. f_equal.
  destruct (run_samples_windows power goertzel fgt (length samples) samples
              (Receiver sb0 0 (init junk))) as (Hw & _); [lia|reflexivity|exact Hsb|].
  destruct (run_samples_windows power goertzel fgt (length samples) samples
              (Receiver sb0' 0 (init junk'))) as (Hw' & _); [lia|reflexivity|exact Hsb'|].
  cbn zeta in Hw, Hw'. cbn [dec] in Hw, Hw'.
  apply (f_equal snd) in Hw, Hw'. cbn [snd] in Hw, Hw'. rewrite Hw, Hw'.
  apply run_bits_junk, init_junk; assumption.
Qed.

Lemma uninitialised_memory_unseen_witness :
  let g := fun (w : list Z) (n hz : Z) => foldr Z.add 0 w * hz in
  main g Z.ltb ["atis"; "host"; "5005"]%string (replicate 20 0) zeros16 (replicate 45 9)
  = main g Z.ltb ["atis"; "host"; "5005"]%string (replicate 20 77) (replicate 16 42)
         (replicate 45 9).
Proof.
  intros g.
  apply (uninitialised_memory_unseen g Z.ltb); reflexivity.
Defined.

(** ** The windows of the sample stream *)

Lemma windows_upto_spec (n : nat) (ss : list Z) :
  (length ss <= n)%nat ->
  Forall (fun w => length w = 20%nat) (windows_upto n ss)
  /\ length (windows_upto n ss) = (length ss / 20)%nat
  /\ exists rest, ss = concat (windows_upto n ss) ++ rest
                  /\ length rest = (length ss mod 20)%nat.
Proof.
  revert ss. induction n as [|n IH]; intros ss Hn.
  - destruct ss; [|cbn in Hn; lia]. cbn. repeat split; [constructor|].
    exists []. split; reflexivity.
  - cbn [windows_upto]. destruct (length ss <? 20)%nat eqn:Hlt.
    + apply Nat.ltb_lt in Hlt. split; [constructor|].
      split; [cbn [length]; symmetry; apply Nat.div_small, Hlt|].
      exists ss. split; [reflexivity|symmetry; apply Nat.mod_small, Hlt].
    + apply Nat.ltb_ge in Hlt.
      destruct (IH (drop 20 ss)) as (H1 & H2 & rest & H3 & H4);
        [rewrite length_drop; lia|].
      rewrite length_drop in H2, H4.
      assert (Hd : (length ss = (length ss - 20) + 1 * 20)%nat) by lia.
      split; [constructor; [rewrite length_take; lia|exact H1]|].
      split.
      * cbn [length]. rewrite H2.
        replace (length ss / 20)%nat with ((length ss - 20 + 1 * 20) / 20)%nat
          by (f_equal; lia).
        rewrite Nat.div_add by lia. lia.
      * exists rest. split.
        -- cbn [concat]. rewrite <- app_assoc, <- H3. symmetry. apply take_drop.
        -- rewrite H4.
           replace (length ss mod 20)%nat with ((length ss - 20 + 1 * 20) mod 20)%nat
             by (f_equal; lia).
           rewrite Nat.Div0.mod_add. reflexivity.
Qed.

(** X13: the samples are cut into consecutive windows of 20 from the start
    of the stream; each window gives one bit, computed from its twenty
    samples alone, and [main] sends out what the decoder sends on these bits:
    samples left over at the end, and there are fewer than 20 of them, have no
    effect. *)
Theorem main_decodes_windows {power : Type}
    (goertzel : list Z -> Z -> Z -> power) (fgt : power -> power -> bool)
    (argv : list string) (sb0 junk samples : list Z) :
  length sb0 = 20%nat -> (3 <= length argv)%nat ->
  main goertzel fgt argv sb0 junk samples
  = (0, (run_bits (map (classify goertzel fgt) (windows samples)) (init junk)).2)
  /\ Forall (fun w => length w = 20%nat) (windows samples)
  /\ length (windows samples) = (length samples / 20)%nat
  /\ exists rest, samples = concat (windows samples) ++ rest
                  /\ length rest = (length samples mod 20)%nat.
Proof.
  intros Hsb Hargc. split; [|apply windows_upto_spec; lia].
  unfold main.
  replace (Z.of_nat (length argv) <? 3) with false
    by (symmetry; apply Z.ltb_ge; lia).
  f_equal.
  destruct (run_samples_windows power goertzel fgt (length samples) samples
              (Receiver sb0 0 (init junk))) as (Hw & _); [lia|reflexivity|exact Hsb|].
  cbn zeta in Hw. cbn [dec] in Hw.
  apply (f_equal snd) in Hw. exact Hw.
Qed.

Lemma main_decodes_windows_witness :
  let g := fun (w : list Z) (n hz : Z) => foldr Z.add 0 w * hz in
  length (replicate 20 0) = 20%nat
  /\ (3 <= length ["atis"; "host"; "5005"]%string)%nat
  /\ length (windows (replicate 45 9)) = 2%nat
  /\ main g Z.ltb ["atis"; "host"; "5005"]%string (replicate 20 0) zeros16
          (replicate 45 9)
     = (0, (run_bits (map (classify g Z.ltb) (windows (replicate 45 9)))
                     (init zeros16)).2).
Proof.
  intros g.
  pose proof (main_decodes_windows g Z.ltb ["atis"; "host"; "5005"]%string
                (replicate 20 0) zeros16 (replicate 45 9) eq_refl ltac:(cbn; lia))
    as (Hm & _ & Hl & _).
  split; [reflexivity|]. split; [cbn; lia|]. split; [exact Hl|exact Hm].
Defined.

(** ** What the check field does not catch *)

Lemma swap_undetected_all :
  forallb (fun b =>
    implb (0 <=? sym_decode b)
      (forallb (fun i =>
         forallb (fun j =>
           implb (negb (nth i b 0 =? nth j b 0))
                 ((0 <=? sym_decode (swap i j b))
                  && negb (sym_decode (swap i j b) =? sym_decode b)))
           (seq 0 7))
         (seq 0 7)))
    (bit_groups 10) = true.
Proof. vm_compute. reflexivity. Qed.

(** X14: exchanging two data bits of different value in a group that decodes
    gives a group that decodes as well, to another value: the check field
    counts the zero data bits and does not see where they are. *)
Theorem swapped_bits_undetected (b : list Z) (i j : nat) :
  length b = 10%nat -> Forall is_bit b -> 0 <= sym_decode b ->
  (i < 7)%nat -> (j < 7)%nat -> nth i b 0 <> nth j b 0 ->
  0 <= sym_decode (swap i j b) /\ sym_decode (swap i j b) <> sym_decode b.
Proof.
  intros Hlen Hb Hv Hi Hj Hne.
  pose proof (by_enumeration _ b swap_undetected_all Hlen Hb) as H. cbn beta in H.
  replace (0 <=? sym_decode b) with true in H by (symmetry; apply Z.leb_le, Hv).
  cbn [implb] in H. rewrite forallb_forall in H.
  specialize (H i ltac:(apply in_seq; lia)). rewrite forallb_forall in H.
  specialize (H j ltac:(apply in_seq; lia)).
  replace (nth i b 0 =? nth j b 0) with false in H
    by (symmetry; apply Z.eqb_neq, Hne).
  cbn [negb implb] in H. apply andb_prop in H as (H1 & H2).
  split; [apply Z.leb_le, H1|].
  apply Z.eqb_neq. destruct (sym_decode (swap i j b) =? sym_decode b);
    [discriminate H2|reflexivity].
Qed.

Lemma swapped_bits_undetected_witness :
  sym_decode dx_cells = 125
  /\ 0 <= sym_decode (swap 0 1 dx_cells)
  /\ sym_decode (swap 0 1 dx_cells) <> sym_decode dx_cells.
Proof.
  split; [reflexivity|].
  apply (swapped_bits_undetected dx_cells 0 1);
    [reflexivity|bits_ok|vm_compute; discriminate|lia|lia|vm_compute; discriminate].
Defined.

(** ** The reported identifier *)

Lemma digit_value (k : Z) :
  0 <= k <= 9 -> Z.of_nat (nat_of_ascii (digit k)) - 48 = k.
Proof.
  intros Hk. unfold digit. rewrite nat_ascii_embedding by lia. lia.
Qed.

Lemma digit_zero (k : Z) :
  0 <= k <= 9 -> Ascii.eqb (digit k) "0" = (k =? 0).
Proof.
  intros Hk. destruct (Z.eqb_spec k 0) as [-> | Hne]; [reflexivity|].
  apply Ascii.eqb_neq. intros Heq.
  apply (f_equal nat_of_ascii) in Heq. unfold digit in Heq.
  rewrite nat_ascii_embedding in Heq by lia.
  change (nat_of_ascii "0") with 48%nat in Heq. lia.
Qed.

(** X15: the identifier sent for five stored values [a b c d e] of 0..99
    writes the number a*10^8 + b*10^6 + c*10^4 + d*100 + e in decimal; it has
    nine digits when [a] is below 10 and ten digits otherwise, so dropping
    the leading zero never changes the number. *)
Theorem identifier_value (l : list Z) (a b c d e : Z) :
  take 5 l = [a; b; c; d; e] ->
  0 <= a <= 99 -> 0 <= b <= 99 -> 0 <= c <= 99 -> 0 <= d <= 99 -> 0 <= e <= 99 ->
  let p := strip (render l) in
  decimal_value p = a * 100000000 + b * 1000000 + c * 10000 + d * 100 + e
  /\ String.length p = if a <? 10 then 9%nat else 10%nat.
Proof.
  intros Ht Ha Hb Hc Hd He p. subst p.
  rewrite render_two_digits
    by (rewrite Ht; repeat (constructor; [assumption|]); constructor).
  rewrite Ht. unfold two_digits. cbn [map String.concat String.append].
  destruct (tens_units a Ha) as (Ha1 & Ha2), (tens_units b Hb) as (Hb1 & Hb2),
    (tens_units c Hc) as (Hc1 & Hc2), (tens_units d Hd) as (Hd1 & Hd2),
    (tens_units e He) as (He1 & He2).
  pose proof (Z.div_mod a 10 ltac:(lia)). pose proof (Z.div_mod b 10 ltac:(lia)).
  pose proof (Z.div_mod c 10 ltac:(lia)). pose proof (Z.div_mod d 10 ltac:(lia)).
  pose proof (Z.div_mod e 10 ltac:(lia)).
  unfold strip. cbn [String.length].
  change (Z.of_nat 10 =? 10) with true. cbn [andb].
  rewrite (digit_zero (a / 10)) by lia.
  destruct (Z.eqb_spec (a / 10) 0) as [Hz | Hz].
  - replace (a <? 10) with true by (symmetry; apply Z.ltb_lt; lia).
    split; [|reflexivity].
    unfold decimal_value. cbn [list_ascii_of_string fold_left].
    rewrite !digit_value by lia. lia.
  - replace (a <? 10) with false by (symmetry; apply Z.ltb_ge; lia).
    split; [|reflexivity].
    unfold decimal_value. cbn [list_ascii_of_string fold_left].
    rewrite !digit_value by lia. lia.
Qed.

Lemma identifier_value_witness :
  decimal_value (strip (render [1; 23; 45; 67; 89; 0])) = 123456789
  /\ String.length (strip (render [1; 23; 45; 67; 89; 0])) = 9%nat.
Proof.
  apply (identifier_value [1; 23; 45; 67; 89; 0] 1 23 45 67 89); (reflexivity || lia).
Defined.

(** ** Falling back to HUNT *)

Lemma back_to_hunt (b : bool) (d : decoder) :
  inv d -> state d = LOCKED -> state (on_bit b d).1 = HUNT ->
  rcnt (rg (on_bit b d).1) = 0.
Proof.
  intros Hinv Hst Hback. pose proof Hinv as (Hring & Hm & _).
  rewrite Hst in Hm. destruct Hm as (Hc & H9).
  destruct (Z.lt_ge_cases (sym_bit d + 1) 10) as [Hlt | Hge].
  - exfalso. rewrite <- run_bits_one, locked_prefix in Hback
      by (assumption || (cbn [length]; lia)).
    cbn [fst] in Hback. fields. congruence.
  - destruct (locked_tenth b d Hring Hst ltac:(lia) ltac:(lia)) as (_ & Hr0 & Hrun).
    cbn zeta in Hrun. rewrite Hrun.
    destruct (sym_decode _ <? 0); [exact Hr0|].
    rewrite collect_rg. exact Hr0.
Qed.

(** X16: resynchronisation.  Whenever a LOCKED decoder falls back to HUNT,
    after a failed decode or after a report, its ring is empty, so the bits of
    the old burst are gone and a burst that follows directly is decoded
    whole, as at the start of the program. *)
Theorem resync (b : bool) (d : decoder) (pre gs : list (list bool))
    (v1 x1 v2 x2 v3 x3 v4 x4 v5 : Z) :
  inv d -> state d = LOCKED -> state (on_bit b d).1 = HUNT ->
  Forall (fun g => length g = 10%nat /\ 99 < decode_group g) pre ->
  Forall valid_group gs ->
  map decode_group gs = [v1; x1; v2; x2; v3; x3; v4; x4; v5] ->
  v1 <= 99 -> v2 <= 99 -> v3 <= 99 -> v4 <= 99 -> v5 <= 99 ->
  let p := strip (String.concat "" (map two_digits [v1; v2; v3; v4; v5])) in
  rcnt (rg (on_bit b d).1) = 0
  /\ (run_bits (dx_bits ++ concat pre ++ concat gs) (on_bit b d).1).2
     = [Stdout ("ATIS: " ++ p ++ nl)%string; Datagram (p ++ nl)%string].
Proof.
  intros Hinv Hst Hback Hpre Hgs Hmap L1 L2 L3 L4 L5 p.
  pose proof (back_to_hunt b d Hinv Hst Hback) as Hc.
  split; [exact Hc|].
  apply (burst_run pre gs v1 x1 v2 x2 v3 x3 v4 x4 v5 (on_bit b d).1);
    try assumption.
  apply on_bit_inv, Hinv.
Qed.

Lemma resync_witness :
  let d := (run_bits (dx_bits ++ dx_head) (init zeros16)).1 in
  let gs := map (fun v => symbols [v]) [98; 101; 76; 7; 54; 125; 32; 0; 10] in
  inv d /\ state d = LOCKED /\ state (on_bit false d).1 = HUNT
  /\ (run_bits (dx_bits ++ concat [] ++ concat gs) (on_bit false d).1).2
     = [Stdout ("ATIS: 9876543210" ++ nl)%string;
        Datagram ("9876543210" ++ nl)%string].
Proof.
  intros d gs.
  assert (H1 : inv d) by (apply run_bits_inv, init_inv; reflexivity).
  assert (H3 : Forall valid_group gs).
  { repeat (constructor; [split; [reflexivity|vm_compute; discriminate]|]).
    constructor. }
  pose proof (resync false d [] gs 98 101 76 7 54 125 32 0 10 H1 eq_refl eq_refl
                (List.Forall_nil _) H3 eq_refl) as H.
  destruct H as (_ & He); [lia..|].
  split; [exact H1|]. repeat (split; [reflexivity|]). exact He.
Defined.

(** ** An idle channel *)

Lemma constant_no_dx (b : bool) : sym_decode (replicate 10 (Z.b2z b)) <> SYM_DX.
Proof. destruct b; vm_compute; discriminate. Qed.

Lemma constant_run (b : bool) (n : nat) (d : decoder) :
  inv d -> state d = HUNT ->
  contents (rg d) = replicate (length (contents (rg d))) (Z.b2z b) ->
  let res := run_bits (replicate n b) d in
  res.2 = [] /\ state res.1 = HUNT
  /\ contents (rg res.1) = replicate (length (contents (rg res.1))) (Z.b2z b).
Proof.
  revert d. induction n as [|n IH]; intros d Hinv Hst Hc; cbn zeta.
  - cbn [replicate run_bits fst snd]. repeat split; assumption.
  - cbn [replicate run_bits]. pose proof Hinv as (Hring & Hm & _).
    rewrite Hst in Hm. destruct Hm as (H9 & _).
    pose proof (on_bit_inv b d Hinv) as Hinv1.
    destruct (hunt_step b d Hring ltac:(lia) Hst) as (He & Hq & _ & Hres).
    cbn zeta in Hq, Hres.
    set (k := length (contents (rg d))) in *.
    assert (Hk : (k <= 9)%nat).
    { unfold k. rewrite length_contents. destruct Hring as (_ & _ & _ & ?). lia. }
    assert (Hqq : contents (rg d) ++ [Z.b2z b] = replicate (S k) (Z.b2z b)).
    { rewrite Hc. change [Z.b2z b] with (replicate 1 (Z.b2z b)).
      rewrite <- replicate_add. f_equal. lia. }
    rewrite Hqq in Hq, Hres.
    rewrite (hunt_spec_short (replicate (S k) (Z.b2z b))) in Hq, Hres
      by (rewrite length_replicate; lia).
    rewrite length_replicate in Hq, Hres.
    assert (Hnl : state (on_bit b d).1 = HUNT
                  /\ exists j, contents (rg (on_bit b d).1) = replicate j (Z.b2z b)).
    { destruct (S k =? 10)%nat eqn:H10.
      - apply Nat.eqb_eq in H10. rewrite H10 in Hq, Hres.
        replace (sym_decode (replicate 10 (Z.b2z b)) =? SYM_DX) with false in Hq, Hres
          by (symmetry; apply Z.eqb_neq, constant_no_dx).
        cbn [fst snd] in Hq, Hres. split; [apply Hres|].
        exists 9%nat. rewrite Hq. reflexivity.
      - cbn [fst snd] in Hq, Hres. split; [apply Hres|]. exists (S k). exact Hq. }
    destruct Hnl as (Hs1 & j & Hj).
    destruct (on_bit b d) as [d1 e1]. cbn [fst snd] in *. subst e1.
    destruct (IH d1 Hinv1 Hs1) as (He2 & Hs2 & Hc2).
    { rewrite Hj, length_replicate. reflexivity. }
    destruct (run_bits (replicate n b) d1) as [d2 e2]. cbn [fst snd] in *. subst e2.
    repeat split; assumption.
Qed.

(** X17: a constant bit stream, all 1 or all 0 as an idle channel gives,
    never locks the decoder: from the start of the program it stays in HUNT
    and sends nothing, however long the stream. *)
Theorem idle_channel_silent (junk : list Z) (b : bool) (n : nat) :
  length junk = 16%nat ->
  (run_bits (replicate n b) (init junk)).2 = []
  /\ state (run_bits (replicate n b) (init junk)).1 = HUNT.
Proof.
  intros Hj.
  destruct (constant_run b n (init junk)) as (He & Hs & _);
    [apply init_inv, Hj|reflexivity|reflexivity|].
  split; assumption.
Qed.

Lemma idle_channel_silent_witness :
  length zeros16 = 16%nat
  /\ (run_bits (replicate 500 true) (init zeros16)).2 = []
  /\ state (run_bits (replicate 500 true) (init zeros16)).1 = HUNT.
Proof.
  split; [reflexivity|]. apply (idle_channel_silent zeros16 true 500). reflexivity.
Defined.
